(** * The openevse Home Assistant component, embedded in Rocq

    A shallow embedding of [custom_components/openevse/__init__.py]:
    Python values and exceptions, a state-and-exception monad for the
    effects of the module (the host's [hass.data] store, the calls made
    to the host framework and to the [openevsehttp] client, the log),
    the functions of the module, and the properties they satisfy. *)

From stdpp Require Import gmap strings list fin_maps pretty.

Local Open Scope Z_scope.
Local Open Scope string_scope.
Local Open Scope list_scope.

(** ** Python values *)

Module Py.

(** The values that config entries hold and that the client's attributes
    yield: [None], booleans, integers and strings. *)
Inductive pyval : Type :=
| PNone
| PBool (b : bool)
| PInt (z : Z)
| PStr (s : string).

#[global] Instance pyval_eq_dec : EqDecision pyval.
Proof. solve_decision. Defined.

(** Python's [==] makes [True == 1] and [False == 0]; every other pair of
    values of different kinds is unequal.  [norm] picks one representative
    per [==]-class. *)
Definition norm (v : pyval) : pyval :=
  match v with
  | PBool b => PInt (Z.b2z b)
  | _ => v
  end.

Definition py_eqb (a b : pyval) : bool := bool_decide (norm a = norm b).

(** [str(v)], as an f-string or the [%s] conversion formats it. *)
Definition py_str (v : pyval) : string :=
  match v with
  | PNone => "None"
  | PBool true => "True"
  | PBool false => "False"
  | PInt z => pretty z
  | PStr s => s
  end.

(** A [dict] with string keys. *)
Abbreviation dict := (gmap string pyval).

(** [d.get(k)]: the value, or [None] when the key is absent. *)
Definition dict_get (d : dict) (k : string) : pyval := default PNone (d !! k).

(** [d1 == d2] on dicts: the same keys, with [==] values. *)
Definition dict_eqb (d1 d2 : dict) : bool :=
  bool_decide (norm <$> d1 = norm <$> d2).

(** *** Exception classes

    The classes the module names, the builtin and library classes they
    derive from, and [OtherError] for any further class deriving directly
    from [Exception].  Every class here is a subclass of [Exception]. *)
Inductive pyclass : Type :=
| Exception
| LookupError
| KeyError
| ValueError
| AttributeError
| TypeError
| OSError
| RequestException        (* requests: derives from IOError = OSError *)
| ConnectionError         (* requests.ConnectionError *)
| HomeAssistantError
| UpdateFailed
| ConfigEntryNotReady
| InvalidValue            (* class InvalidValue(Exception) *)
| CommandFailed           (* class CommandFailed(Exception) *)
| OtherError (name : string).

#[global] Instance pyclass_eq_dec : EqDecision pyclass.
Proof. solve_decision. Defined.

(** The method resolution order of a class, itself first. *)
Definition mro (c : pyclass) : list pyclass :=
  match c with
  | Exception => [Exception]
  | LookupError => [LookupError; Exception]
  | KeyError => [KeyError; LookupError; Exception]
  | ValueError => [ValueError; Exception]
  | AttributeError => [AttributeError; Exception]
  | TypeError => [TypeError; Exception]
  | OSError => [OSError; Exception]
  | RequestException => [RequestException; OSError; Exception]
  | ConnectionError => [ConnectionError; RequestException; OSError; Exception]
  | HomeAssistantError => [HomeAssistantError; Exception]
  | UpdateFailed => [UpdateFailed; HomeAssistantError; Exception]
  | ConfigEntryNotReady => [ConfigEntryNotReady; HomeAssistantError; Exception]
  | InvalidValue => [InvalidValue; Exception]
  | CommandFailed => [CommandFailed; Exception]
  | OtherError n => [OtherError n; Exception]
  end.

Definition issubclass (c d : pyclass) : bool := bool_decide (d ∈ mro c).

(** An exception instance: its class, [str()] of it, and the exception it
    was raised [from]. *)
Inductive exn : Type :=
| Exn (cls : pyclass) (msg : string)
| ExnFrom (cls : pyclass) (msg : string) (cause : exn).

Definition exn_class (e : exn) : pyclass :=
  match e with Exn c _ | ExnFrom c _ _ => c end.
Definition exn_msg (e : exn) : string :=
  match e with Exn _ m | ExnFrom _ m _ => m end.
Definition exn_cause (e : exn) : option exn :=
  match e with Exn _ _ => None | ExnFrom _ _ c => Some c end.

(** [raise C]: an instance of [C] built without arguments. *)
Definition exc (c : pyclass) : exn := Exn c "".

(** [C(error)] raised [from error]. *)
Definition exc_from (c : pyclass) (error : exn) : exn :=
  ExnFrom c (exn_msg error) error.

Definition isinstance (e : exn) (c : pyclass) : bool :=
  issubclass (exn_class e) c.

(** [except (C1, ..., Cn)] matches an instance of any of the classes. *)
Definition matches (e : exn) (classes : list pyclass) : bool :=
  existsb (isinstance e) classes.

(** The outcome of a call: a value, or a raised exception. *)
Inductive result (A : Type) : Type :=
| Return (a : A)
| Raise (e : exn).
Arguments Return {A} a.
Arguments Raise {A} e.

(** [datetime.timedelta], normalised as Python does. *)
Record timedelta : Type := mk_timedelta {
  td_days : Z;
  td_seconds : Z;
  td_microseconds : Z;
}.

Definition timedelta_seconds (s : Z) : timedelta :=
  {| td_days := s `div` 86400; td_seconds := s `mod` 86400; td_microseconds := 0 |}.

End Py.
Export Py.

(** ** Effects: the host's store, the calls made, the log *)

Module Eff.

(** A config entry of the host: the fields the module reads. *)
Record ConfigEntry : Type := mk_ConfigEntry {
  entry_id : string;
  data : dict;
  options : dict;
}.

(** An [OpenEVSEUpdateCoordinator] object: the attributes set by its
    [__init__] and by the host's [DataUpdateCoordinator]. *)
Record Coordinator : Type := mk_Coordinator {
  interval : timedelta;
  name : string;
  config : ConfigEntry;
  update_interval : timedelta;
  last_update_success : bool;
  coordinator_data : option dict;
}.

Inductive level : Type := DEBUG | INFO | WARNING | ERROR.

(** The calls the module makes to the client library and to the host,
    with their arguments, in the order they are made. *)
Inductive call : Type :=
| COpenEVSE (host user pwd : pyval)
| CUpdate
| CGetattr (attr : string)
| CHandlerSendCommand (command : string)
| CAddUpdateListener (eid : string)
| CCoordinatorInit (name : string) (update_interval : timedelta)
| CAsyncRefresh
| CExecutorJob (func : string)
| CGetRegistry
| CDeviceGetOrCreate (config_entry_id : string)
    (connections : list (string * string)) (name : pyval)
    (manufacturer model : string) (sw_version : pyval)
| CForwardEntrySetup (eid platform : string)
| CForwardEntryUnload (eid platform : string)
| CUpdateEntry (eid : string) (new_data : dict)
| CReload (eid : string).

(** The state the module's functions act on.  [hass_data] is
    [hass.data]: domain, then entry id, then the record stored for the
    entry.  [mod_states] is the module's global [states]. *)
Record World : Type := mk_World {
  hass_data : gmap string (gmap string (gmap string Coordinator));
  mod_states : gmap Z string;
  calls : list call;
  log : list (level * string);
}.

Definition set_hass_data
    (f : gmap string (gmap string (gmap string Coordinator)) →
         gmap string (gmap string (gmap string Coordinator)))
    (w : World) : World :=
  {| hass_data := f (hass_data w); mod_states := mod_states w;
     calls := calls w; log := log w |}.

Definition add_call (c : call) (w : World) : World :=
  {| hass_data := hass_data w; mod_states := mod_states w;
     calls := calls w ++ [c]; log := log w |}.

Definition add_log (l : level) (fmt : string) (w : World) : World :=
  {| hass_data := hass_data w; mod_states := mod_states w;
     calls := calls w; log := log w ++ [(l, fmt)] |}.

(** A computation: from a state to an outcome and the state it leaves.
    A raised exception keeps the mutations made before it. *)
Definition M (A : Type) : Type := World → result A * World.

Definition ret {A} (a : A) : M A := λ w, (Return a, w).

Definition raise {A} (e : exn) : M A := λ w, (Raise e, w).

Definition bind {A B} (m : M A) (k : A → M B) : M B :=
  λ w, match m w with
       | (Return a, w') => k a w'
       | (Raise e, w') => (Raise e, w')
       end.

(** The outcome of an external call, brought into the computation. *)
Definition lift {A} (r : result A) : M A := λ w, (r, w).

Definition called (c : call) : M unit := λ w, (Return tt, add_call c w).

(** [_LOGGER.<level>(fmt, ...)]; the arguments formatted in are not kept. *)
Definition logger (l : level) (fmt : string) : M unit :=
  λ w, (Return tt, add_log l fmt w).

(** [try: body / except classes as error: handler], where [handler] ends
    in a [return]: on success the function goes on with [k], on a caught
    exception the handler's value is the function's. *)
Definition try_return {A B} (body : M A) (classes : list pyclass)
    (handler : exn → M B) (k : A → M B) : M B :=
  λ w, match body w with
       | (Return a, w') => k a w'
       | (Raise e, w') =>
           if matches e classes then handler e w' else (Raise e, w')
       end.

(** [try: body / except classes as error: handler], where control falls
    through to the statement after the [try] in both cases. *)
Definition try_except {A} (body : M A) (classes : list pyclass)
    (handler : exn → M A) : M A :=
  try_return body classes handler ret.

Definition run {A} (m : M A) (w : World) : result A := (m w).1.
Definition exec {A} (m : M A) (w : World) : World := (m w).2.

(** The value returned, if the computation returns. *)
Definition run_value {A} (m : M A) (w : World) : option A :=
  match run m w with
  | Return a => Some a
  | Raise _ => None
  end.

End Eff.
Export Eff.

Notation "x <- c1 ;; c2" := (bind c1 (λ x, c2))
  (at level 100, c1 at next level, right associativity).
Notation "c1 ;; c2" := (bind c1 (λ _, c2))
  (at level 100, right associativity).

(** ** What the module imports *)

(** [homeassistant.const] *)
Definition CONF_HOST : string := "host".
Definition CONF_USERNAME : string := "username".
Definition CONF_PASSWORD : string := "password".

(** A [SensorEntityDescription]: the field the module reads. *)
Record SensorEntityDescription : Type := mk_SensorEntityDescription {
  key : string;
}.

(** The names imported from [.const], whose values are not part of the
    module.  [SENSOR_TYPES] is a dict; it is kept in insertion order, the
    order in which [for sensor in SENSOR_TYPES] visits its keys. *)
Class Const : Type := {
  CONF_NAME : string;
  COORDINATOR : string;
  DOMAIN : string;
  ISSUE_URL : string;
  PLATFORMS : list string;
  SENSOR_TYPES : list (string * SensorEntityDescription);
  VERSION : string;
}.

(** The [openevsehttp] client: the constructor, [update()], which either
    refreshes the state held by the object or raises, and the reading of
    an attribute of the object, which yields a value or raises. *)
Class OpenEVSEhttp : Type := {
  client : Type;
  client_init : pyval → pyval → pyval → client;
  client_update : client → result client;
  client_getattr : client → string → result pyval;
}.

(** The host framework, as far as its answers decide what the module
    does: the outcome of unloading a platform of an entry, and of
    reloading an entry; and, for calls awaited together of which several
    raise, which exception is raised first in time: its index among the
    exceptions raised, these taken in the order of the calls (an index
    out of range stands for the first). *)
Class Host : Type := {
  forward_entry_unload : string → string → result bool;
  reload : string → result unit;
  raised_first : list exn → nat;
}.

(** ** The module *)

Section Component.
Context `{!Const, !OpenEVSEhttp, !Host}.

Definition states : gmap Z string :=
  list_to_map
    [ (0, "unknown");
      (1, "not connected");
      (2, "connected");
      (3, "charging");
      (4, "vent required");
      (5, "diode check failed");
      (6, "gfci fault");
      (7, "no ground");
      (8, "stuck relay");
      (9, "gfci self-test failure");
      (10, "over temperature");
      (254, "sleeping");
      (255, "disabled") ].

(** The state when the module has been imported. *)
Definition init_world : World :=
  {| hass_data := ∅; mod_states := states; calls := []; log := [] |}.

(** *** Calls to the client library *)

(** [openevsehttp.OpenEVSE(host, user=username, pwd=password)] *)
Definition OpenEVSE (host username password : pyval) : M client :=
  called (COpenEVSE host username password) ;;
  ret (client_init host username password).

(** [charger.update()]: the object after the call. *)
Definition update (charger : client) : M client :=
  called CUpdate ;; lift (client_update charger).

(** [getattr(charger, attr)], also written [charger.attr]. *)
Definition getattr (charger : client) (attr : string) : M pyval :=
  called (CGetattr attr) ;; lift (client_getattr charger attr).

(** *** Calls to the host *)

(** [hass.async_add_executor_job(func, ...)], awaited: the job's outcome. *)
Definition async_add_executor_job {A} (func : string) (job : M A) : M A :=
  called (CExecutorJob func) ;; job.

(** Every awaitable of [aws] runs, whatever the others do: their
    outcomes, in the order of [aws]. *)
Fixpoint run_all {A} (aws : list (M A)) : World → list (result A) * World :=
  match aws with
  | [] => λ w, ([], w)
  | aw :: aws' =>
      λ w, let (r, w1) := aw w in
           let (rs, w2) := run_all aws' w1 in
           (r :: rs, w2)
  end.

(** The exceptions and the values among outcomes, in their order. *)
Definition raised {A} (rs : list (result A)) : list exn :=
  omap (λ r, match r with Raise e => Some e | Return _ => None end) rs.

Definition returned {A} (rs : list (result A)) : list A :=
  omap (λ r, match r with Return a => Some a | Raise _ => None end) rs.

(** What [asyncio.gather] makes of the outcomes of its awaitables: the
    list of the values, in order, when none raises; otherwise the
    exception that is raised first in time, which the host's scheduling
    decides. *)
Definition gathered {A} (rs : list (result A)) : result (list A) :=
  match raised rs with
  | [] => Return (returned rs)
  | e :: es => Raise (default e ((e :: es) !! raised_first (e :: es)))
  end.

(** [asyncio.gather] of the awaitables [aws], awaited. *)
Definition gather {A} (aws : list (M A)) : M (list A) :=
  λ w, let (rs, w') := run_all aws w in (gathered rs, w').

(** [for x in l: body], for a body that binds nothing the rest reads. *)
Fixpoint for_each {A} (l : list A) (body : A → M unit) : M unit :=
  match l with
  | [] => ret tt
  | x :: l' => body x ;; for_each l' body
  end.

(** [hass.async_create_task(
      hass.config_entries.async_forward_entry_setup(config_entry, platform))]:
    the task is scheduled and runs after the caller. *)
Definition create_forward_entry_setup_task
    (config_entry : ConfigEntry) (platform : string) : M unit :=
  called (CForwardEntrySetup (entry_id config_entry) platform).

(** [hass.config_entries.async_forward_entry_unload(config_entry, platform)] *)
Definition async_forward_entry_unload
    (config_entry : ConfigEntry) (platform : string) : M bool :=
  called (CForwardEntryUnload (entry_id config_entry) platform) ;;
  lift (forward_entry_unload (entry_id config_entry) platform).

(** [hass.config_entries.async_update_entry(entry=..., data=...)]: the
    host stores the new data in the entry when it differs.  The entry
    after the call. *)
Definition async_update_entry
    (entry : ConfigEntry) (new_data : dict) : M ConfigEntry :=
  called (CUpdateEntry (entry_id entry) new_data) ;;
  ret (if dict_eqb (data entry) new_data then entry
       else {| entry_id := entry_id entry; data := new_data;
               options := options entry |}).

(** [hass.config_entries.async_reload(entry_id)], as far as the listener
    sees it: the call and its outcome.  What the host does while it
    reloads, the entry's unload and set-up included, is the host's and
    has no part in the steps of [update_listener]. *)
Definition async_reload (eid : string) : M unit :=
  called (CReload eid) ;; lift (reload eid).

(** [hass.data.setdefault(domain, {})] *)
Definition hass_data_setdefault (domain : string) : M unit :=
  λ w, (Return tt,
        match hass_data w !! domain with
        | Some _ => w
        | None => set_hass_data (insert domain ∅) w
        end).

(** [hass.data[domain][eid] = record] *)
Definition hass_data_setitem (domain eid : string)
    (record : gmap string Coordinator) : M unit :=
  λ w, match hass_data w !! domain with
       | None => (Raise (Exn KeyError domain), w)
       | Some d => (Return tt, set_hass_data (insert domain (<[eid := record]> d)) w)
       end.

(** [hass.data[domain].pop(eid)] *)
Definition hass_data_pop (domain eid : string) : M (gmap string Coordinator) :=
  λ w, match hass_data w !! domain with
       | None => (Raise (Exn KeyError domain), w)
       | Some d =>
           match d !! eid with
           | None => (Raise (Exn KeyError eid), w)
           | Some record =>
               (Return record, set_hass_data (insert domain (delete eid d)) w)
           end
       end.

(** [d[k]] on a dict *)
Definition dict_getitem (d : dict) (k : string) : M pyval :=
  match d !! k with
  | Some v => ret v
  | None => raise (Exn KeyError k)
  end.

(** The entry of the dict [SENSOR_TYPES] under a key, if any. *)
Definition sensor_types_lookup (sensor : string) : option SensorEntityDescription :=
  (λ found, found.2.2) <$> list_find (λ kv, kv.1 = sensor) SENSOR_TYPES.

(** [SENSOR_TYPES[sensor]] *)
Definition sensor_types_getitem (sensor : string) : M SensorEntityDescription :=
  match sensor_types_lookup sensor with
  | Some description => ret description
  | None => raise (Exn KeyError sensor)
  end.

(** *** The functions of the module *)

Definition async_setup : M bool := ret true.

Definition get_firmware (config : ConfigEntry) : M (pyval * pyval) :=
  let host := dict_get (data config) CONF_HOST in
  let username := dict_get (data config) CONF_USERNAME in
  let password := dict_get (data config) CONF_PASSWORD in
  logger DEBUG "Connecting to %s, with username %s" ;;
  charger <- OpenEVSE host username password ;;
  try_return (update charger) [Exception]
    (λ error,
       logger ERROR "Problem retreiving firmware data: %s" ;;
       ret (PStr "", PStr ""))
    (λ charger,
       wifi_firmware <- getattr charger "wifi_firmware" ;;
       openevse_firmware <- getattr charger "openevse_firmware" ;;
       ret (wifi_firmware, openevse_firmware)).

(** One turn of the loop of [get_sensors]: [data] after it. *)
Definition get_sensors_body (charger : client) (sensor : string)
    (data : dict) : M dict :=
  _sensor <-
    try_except
      (description <- sensor_types_getitem sensor ;;
       let sensor_property := key description in
       value <- (if decide (sensor = "current_power") then ret PNone
                 else getattr charger sensor_property) ;;
       let _sensor : dict := <[sensor := value]> ∅ in
       logger DEBUG "sensor: %s sensor_property: %s value: %s" ;;
       ret _sensor)
      [RequestException; ValueError; KeyError]
      (λ _, logger WARNING "Could not update status for %s" ;; ret ∅) ;;
  (* data.update(_sensor) *)
  ret (_sensor ∪ data).

Fixpoint get_sensors_loop (charger : client) (sensors : list string)
    (data : dict) : M dict :=
  match sensors with
  | [] => ret data
  | sensor :: sensors' =>
      data <- get_sensors_body charger sensor data ;;
      get_sensors_loop charger sensors' data
  end.

Definition get_sensors (config : ConfigEntry) : M dict :=
  let data : dict := ∅ in
  let host := dict_get (Eff.data config) CONF_HOST in
  let username := dict_get (Eff.data config) CONF_USERNAME in
  let password := dict_get (Eff.data config) CONF_PASSWORD in
  charger <- OpenEVSE host username password ;;
  try_return (update charger) [Exception]
    (λ error, logger ERROR "Error updating sesnors: %s" ;; ret ∅)
    (λ charger,
       data <- get_sensors_loop charger (SENSOR_TYPES.*1) data ;;
       logger DEBUG "DEBUG: %s" ;;
       ret data).

(** [OpenEVSEUpdateCoordinator.__init__]; the last step is the host's
    [DataUpdateCoordinator.__init__], which keeps the name and the update
    interval it is given and starts with no data. *)
Definition OpenEVSEUpdateCoordinator
    (interval : Z) (config : ConfigEntry) : M Coordinator :=
  let self_interval := timedelta_seconds interval in
  let self_name :=
    "OpenEVSE (" +:+ py_str (dict_get (data config) CONF_NAME) +:+ ")" in
  logger DEBUG "Data will be update every %s" ;;
  called (CCoordinatorInit self_name self_interval) ;;
  ret {| Eff.interval := self_interval;
         name := self_name;
         Eff.config := config;
         update_interval := self_interval;
         last_update_success := true;
         coordinator_data := None |}.

Definition _async_update_data (self : Coordinator) : M dict :=
  try_except
    (async_add_executor_job "get_sensors" (get_sensors (config self)))
    [Exception]
    (λ error, raise (exc_from UpdateFailed error)).

(** The host's [DataUpdateCoordinator.async_refresh]: it runs
    [_async_update_data], keeps the data on success and records whether
    the update succeeded.  The coordinator after the call. *)
Definition async_refresh (self : Coordinator) : M Coordinator :=
  called CAsyncRefresh ;;
  try_except
    (d <- _async_update_data self ;;
     ret {| interval := interval self; name := name self;
            config := config self; update_interval := update_interval self;
            last_update_success := true; coordinator_data := Some d |})
    [Exception]
    (λ _,
     ret {| interval := interval self; name := name self;
            config := config self; update_interval := update_interval self;
            last_update_success := false;
            coordinator_data := coordinator_data self |}).

(** The entry after the call comes with the outcome: the host's
    [async_update_entry] replaces the data of the entry object. *)
Definition update_listener (config_entry : ConfigEntry) : M ConfigEntry :=
  logger DEBUG "Attempting to reload entities from the %s integration" ;;
  if dict_eqb (data config_entry) (options config_entry) then
    logger DEBUG "No changes detected not reloading entities." ;;
    ret config_entry
  else
    let new_data := options config_entry (* .copy() *) in
    config_entry <- async_update_entry config_entry new_data ;;
    async_reload (entry_id config_entry) ;;
    ret config_entry.

Definition async_setup_entry (config_entry : ConfigEntry) : M bool :=
  hass_data_setdefault DOMAIN ;;
  logger INFO
    "Version %s is starting, if you have any issues please report them here: %s" ;;
  called (CAddUpdateListener (entry_id config_entry)) ;;
  let interval := 10 in
  coordinator <- OpenEVSEUpdateCoordinator interval config_entry ;;
  coordinator <- async_refresh coordinator ;;
  (if negb (last_update_success coordinator)
   then raise (exc ConfigEntryNotReady) else ret tt) ;;
  hass_data_setitem DOMAIN (entry_id config_entry)
    (<[COORDINATOR := coordinator]> ∅) ;;
  fw <- async_add_executor_job "get_firmware" (get_firmware config_entry) ;;
  let '(model_info, sw_version) := fw in
  called CGetRegistry ;;
  device_name <- dict_getitem (data config_entry) CONF_NAME ;;
  called (CDeviceGetOrCreate (entry_id config_entry)
            [(DOMAIN, entry_id config_entry)] device_name
            "OpenEVSE" ("Wifi version " +:+ py_str model_info) sw_version) ;;
  for_each PLATFORMS (λ platform,
    create_forward_entry_setup_task config_entry platform) ;;
  ret true.

Definition async_unload_entry (config_entry : ConfigEntry) : M bool :=
  logger DEBUG "Attempting to unload entities from the %s integration" ;;
  results <- gather (map (λ platform,
                            async_forward_entry_unload config_entry platform)
                         PLATFORMS) ;;
  let unload_ok := forallb id results in
  (if unload_ok then
     logger DEBUG "Successfully removed entities from the %s integration" ;;
     hass_data_pop DOMAIN (entry_id config_entry) ;;
     ret tt
   else ret tt) ;;
  ret unload_ok.

(** [handler] is the object whose [send_command(command)] answers with
    the pair [(cmd, response)], or raises. *)
Definition send_command
    (handler : string → result (string * string)) (command : string) : M unit :=
  reply <- (called (CHandlerSendCommand command) ;; lift (handler command)) ;;
  let '(cmd, response) := reply in
  logger DEBUG "send_command: %s, %s" ;;
  if decide (cmd = command) then
    if decide (response = "$NK^21") then raise (exc InvalidValue)
    else ret tt
  else raise (exc CommandFailed).

(** [connect(host, username=None, password=None)]: an argument left out
    is [None]. *)
Definition connect (host : pyval) (username password : option pyval) : M client :=
  OpenEVSE host (default PNone username) (default PNone password).

End Component.

(** ** Vocabulary of the properties *)

Section Vocabulary.
Context `{!Const, !OpenEVSEhttp, !Host}.

(** A computation leaves an observation [f] of the state as it was. *)
Definition preserves {A B} (f : World → B) (m : M A) : Prop :=
  ∀ w, f (exec m w) = f w.

(** The arguments of the client constructions among the calls made. *)
Definition constructed (cs : list call) : list (pyval * pyval * pyval) :=
  omap (λ c, match c with
             | COpenEVSE host user pwd => Some (host, user, pwd)
             | _ => None
             end) cs.

(** The arguments of the [DataUpdateCoordinator.__init__] calls made. *)
Definition coordinator_inits (cs : list call) : list (string * timedelta) :=
  omap (λ c, match c with
             | CCoordinatorInit nm ui => Some (nm, ui)
             | _ => None
             end) cs.

(** The credentials of an entry, as [config.data.get] reads them. *)
Definition credentials (config : ConfigEntry) : pyval * pyval * pyval :=
  (dict_get (data config) CONF_HOST,
   dict_get (data config) CONF_USERNAME,
   dict_get (data config) CONF_PASSWORD).

(** The client object that the functions build for an entry. *)
Definition client_of (config : ConfigEntry) : client :=
  client_init (dict_get (data config) CONF_HOST)
              (dict_get (data config) CONF_USERNAME)
              (dict_get (data config) CONF_PASSWORD).

(** What reading one sensor from the client yields: the attribute named
    by the sensor's key, except for ["current_power"]. *)
Definition sensor_read (charger : client) (sensor : string) : result pyval :=
  match sensor_types_lookup sensor with
  | None => Raise (Exn KeyError sensor)
  | Some description =>
      if decide (sensor = "current_power") then Return PNone
      else client_getattr charger (key description)
  end.

(** The exceptions that the loop of [get_sensors] catches. *)
Definition caught (e : exn) : bool :=
  matches e [RequestException; ValueError; KeyError].

(** Every sensor of the list is read without an exception other than
    the caught ones. *)
Definition reads_ok (charger : client) (sensors : list string) : Prop :=
  ∀ sensor e, sensor ∈ sensors →
    sensor_read charger sensor = Raise e → caught e = true.

(** The first exception, in the order of the list, that a reading raises
    and the loop does not catch. *)
Fixpoint first_uncaught (charger : client) (sensors : list string) : option exn :=
  match sensors with
  | [] => None
  | sensor :: sensors' =>
      match sensor_read charger sensor with
      | Return _ => first_uncaught charger sensors'
      | Raise e =>
          if caught e then first_uncaught charger sensors' else Some e
      end
  end.

(** The readings of the sensors added to [data], a sensor whose
    reading raised being left out. *)
Definition readings (charger : client) (sensors : list string)
    (data : dict) : dict :=
  foldl (λ data sensor,
           match sensor_read charger sensor with
           | Return v => <[sensor := v]> data
           | Raise _ => data
           end) data sensors.

(** The outcomes of unloading the platforms of an entry. *)
Definition unloads (config_entry : ConfigEntry) : list (result bool) :=
  map (forward_entry_unload (entry_id config_entry)) PLATFORMS.

Definition unload_succeeds (r : result bool) : Prop := r = Return true.

#[global] Instance unload_succeeds_dec r : Decision (unload_succeeds r).
Proof.
  unfold unload_succeeds.
  destruct r as [[|]|e]; [left; reflexivity | right; discriminate ..].
Defined.

(** *** Further vocabulary *)

(** What [get_sensors] yields for an entry: nothing of it depends on the
    state of the host. *)
Definition sensors_outcome (config : ConfigEntry) : result dict :=
  match client_update (client_of config) with
  | Raise _ => Return ∅
  | Return charger =>
      match first_uncaught charger SENSOR_TYPES.*1 with
      | None => Return (readings charger SENSOR_TYPES.*1 ∅)
      | Some e => Raise e
      end
  end.

(** What [get_firmware] yields for an entry. *)
Definition firmware_outcome (config : ConfigEntry) : result (pyval * pyval) :=
  match client_update (client_of config) with
  | Raise _ => Return (PStr "", PStr "")
  | Return charger =>
      match client_getattr charger "wifi_firmware" with
      | Raise e => Raise e
      | Return wifi_firmware =>
          match client_getattr charger "openevse_firmware" with
          | Raise e => Raise e
          | Return openevse_firmware =>
              Return (wifi_firmware, openevse_firmware)
          end
      end
  end.

(** The platform set-ups forwarded among the calls made. *)
Definition forwarded (cs : list call) : list (string * string) :=
  omap (λ c, match c with
             | CForwardEntrySetup eid platform => Some (eid, platform)
             | _ => None
             end) cs.

(** The entries for which an update listener was added. *)
Definition listeners_added (cs : list call) : list string :=
  omap (λ c, match c with
             | CAddUpdateListener eid => Some eid
             | _ => None
             end) cs.

(** The devices registered among the calls made: model and software
    version. *)
Definition devices_registered (cs : list call) : list (string * pyval) :=
  omap (λ c, match c with
             | CDeviceGetOrCreate _ _ _ _ model sw_version =>
                 Some (model, sw_version)
             | _ => None
             end) cs.

(** The attribute that the loop of [get_sensors] reads for a sensor, if
    it reads one. *)
Definition sensor_attr (sensor : string) : option string :=
  if decide (sensor = "current_power") then None
  else key <$> sensor_types_lookup sensor.

(** The records stored under [hass.data[DOMAIN]], none when the key is
    absent. *)
Definition domain_records (w : World) : gmap string (gmap string Coordinator) :=
  default ∅ (hass_data w !! DOMAIN).

(** The coordinator that [async_setup_entry] stores for an entry whose
    first poll gave [d]. *)
Definition first_coordinator (e : ConfigEntry) (d : dict) : Coordinator :=
  {| interval := timedelta_seconds 10;
     name := "OpenEVSE (" +:+ py_str (dict_get (data e) CONF_NAME) +:+ ")";
     config := e;
     update_interval := timedelta_seconds 10;
     last_update_success := true;
     coordinator_data := Some d |}.

(** A computation adds [g] to the observation [f] when it returns and
    nothing when it raises. *)
Definition emits_on_return {A X} (f : World → list X) (g : list X)
    (m : M A) : Prop :=
  ∀ w, f (exec m w) =
       f w ++ match run m w with Return _ => g | Raise _ => [] end.

(** Every platform unload gives an answer, none raises. *)
Definition unload_answers (r : result bool) : Prop := ∃ b, r = Return b.

(** The state with further calls and log records, the rest as it was. *)
Definition extend (cs : list call) (ls : list (level * string))
    (w : World) : World :=
  {| hass_data := hass_data w; mod_states := mod_states w;
     calls := calls w ++ cs; log := log w ++ ls |}.

(** A computation that neither reads nor writes the state of the host:
    in every state it has the same outcome and makes the same calls. *)
Definition oblivious {A} (m : M A) : Prop :=
  ∃ r cs ls, ∀ w, m w = (r, extend cs ls w).

(** The calls that a computation makes, started in the initial state. *)
Definition own_calls {A} (m : M A) : list call := calls (exec m init_world).

End Vocabulary.

(** ** A simulated installation

    Values for the imported constants, a client whose device answers
    depend on the host it is built for, and a host whose platforms
    unload except for one entry; they serve to run the module. *)

Module Sim.

#[export] Instance const : Const := {|
  CONF_NAME := "name";
  COORDINATOR := "coordinator";
  DOMAIN := "openevse";
  ISSUE_URL := "https://github.com/firstof9/openevse/issues";
  PLATFORMS := ["sensor"; "select"];
  SENSOR_TYPES :=
    [ ("status", {| key := "status" |});
      ("charging_current", {| key := "charging_current" |});
      ("ambient_temperature", {| key := "ambient_temperature" |});
      ("current_power", {| key := "current_power" |}) ];
  VERSION := "1.0.0";
|}.

Record SimClient : Type := mk_SimClient {
  sim_host : pyval;
  sim_status : dict;
}.

(** The status document each device answers [update()] with. *)
Definition sim_device (host : pyval) : result dict :=
  if decide (host = PStr "192.168.1.30") then
    Return (list_to_map
      [("state", PInt 3); ("amp", PInt 16); ("temp1", PInt 215);
       ("power", PInt 1200); ("version", PStr "4.1.2");
       ("firmware", PStr "7.1.3")])
  else if decide (host = PStr "192.168.1.31") then
    (* no temperature sensor fitted *)
    Return (list_to_map
      [("state", PInt 1); ("amp", PInt 0); ("temp1", PBool false);
       ("power", PInt 0); ("version", PStr "4.1.2");
       ("firmware", PStr "7.1.3")])
  else if decide (host = PStr "192.168.1.32") then
    (* an older firmware that does not report the current *)
    Return (list_to_map
      [("state", PInt 2); ("temp1", PInt 180); ("power", PInt 0);
       ("version", PStr "2.9.1"); ("firmware", PStr "5.0.1")])
  else Raise (Exn ConnectionError "Cannot connect to host").

Definition sim_update (c : SimClient) : result SimClient :=
  match sim_device (sim_host c) with
  | Return st => Return {| sim_host := sim_host c; sim_status := st |}
  | Raise e => Raise e
  end.

Definition sim_item (c : SimClient) (k : string) : result pyval :=
  match sim_status c !! k with
  | Some v => Return v
  | None => Raise (Exn KeyError k)
  end.

Definition sim_getattr (c : SimClient) (attr : string) : result pyval :=
  if decide (attr = "status") then sim_item c "state"
  else if decide (attr = "charging_current") then sim_item c "amp"
  else if decide (attr = "ambient_temperature") then
    match sim_item c "temp1" with
    | Return (PInt z) => Return (PInt z)
    | Return _ => Raise (Exn TypeError "unsupported operand type(s) for /")
    | Raise e => Raise e
    end
  else if decide (attr = "current_power") then sim_item c "power"
  else if decide (attr = "wifi_firmware") then sim_item c "version"
  else if decide (attr = "openevse_firmware") then sim_item c "firmware"
  else Raise (Exn AttributeError attr).

#[export] Instance lib : OpenEVSEhttp := {|
  client := SimClient;
  client_init host user pwd := {| sim_host := host; sim_status := ∅ |};
  client_update := sim_update;
  client_getattr := sim_getattr;
|}.

(** The clients of the three devices, once updated. *)
Definition updated (host : string) : SimClient :=
  match sim_device (PStr host) with
  | Return st => {| sim_host := PStr host; sim_status := st |}
  | Raise _ => {| sim_host := PStr host; sim_status := ∅ |}
  end.

Definition charger_30 : client := updated "192.168.1.30".
Definition charger_32 : client := updated "192.168.1.32".

#[export] Instance host : Host := {|
  forward_entry_unload eid platform :=
    if decide (eid = "busy" ∧ platform = "select") then Return false
    else Return true;
  reload eid := Return tt;
  raised_first es := 0%nat;
|}.

Definition entry (eid host : string) : ConfigEntry :=
  {| entry_id := eid;
     data := list_to_map
       [("host", PStr host); ("username", PStr "admin");
        ("password", PStr "secret"); ("name", PStr "Garage")];
     options := list_to_map
       [("host", PStr host); ("username", PStr "admin");
        ("password", PStr "secret"); ("name", PStr "Garage")] |}.

(** An entry whose options were edited: a new host. *)
Definition edited_entry : ConfigEntry :=
  {| entry_id := "e1";
     data := data (entry "e1" "192.168.1.30");
     options := options (entry "e1" "192.168.1.32") |}.

(** A handler that echoes the commands it knows, answers [$NK^21] to a
    value out of range, and answers a command it does not know with
    another command. *)
Definition sim_handler (command : string) : result (string * string) :=
  if decide (command = "$SC 16") then Return (command, "$OK^20")
  else if decide (command = "$SC 900") then Return (command, "$NK^21")
  else Return ("$GE", "$OK 16 0001^20").

(** The state once the entries ["e1"] and ["busy"] have been set up. *)
Definition loaded_coordinator (eid : string) : Coordinator :=
  {| interval := timedelta_seconds 10;
     name := "OpenEVSE (Garage)";
     config := entry eid "192.168.1.30";
     update_interval := timedelta_seconds 10;
     last_update_success := true;
     coordinator_data := Some ∅ |}.

Definition loaded_record : gmap string Coordinator :=
  {[ "coordinator" := loaded_coordinator "e1" ]}.

Definition loaded_domain : gmap string (gmap string Coordinator) :=
  {[ "e1" := loaded_record;
     "busy" := {[ "coordinator" := loaded_coordinator "busy" ]} ]}.

Definition loaded_world : World :=
  {| hass_data := {[ "openevse" := loaded_domain ]};
     mod_states := states;
     calls := [];
     log := [] |}.

(** *** Further inputs *)

(** The same client and devices, without an attribute [current_power]. *)
Definition no_power_lib : OpenEVSEhttp := {|
  client := SimClient;
  client_init host user pwd := {| sim_host := host; sim_status := ∅ |};
  client_update := sim_update;
  client_getattr c attr :=
    if decide (attr = "current_power") then Raise (Exn AttributeError attr)
    else sim_getattr c attr;
|}.

Definition charger_31 : client := updated "192.168.1.31".

(** An entry whose data has no name. *)
Definition nameless_entry : ConfigEntry :=
  {| entry_id := "e3";
     data := list_to_map
       [("host", PStr "192.168.1.30"); ("username", PStr "admin");
        ("password", PStr "secret")];
     options := ∅ |}.

(** A host on which no platform was loaded for the entry: asking any of
    them to unload raises, and the second one asked is the first to
    do so. *)
Definition failing_host : Host := {|
  forward_entry_unload eid platform :=
    Raise (Exn ValueError platform);
  reload eid := Return tt;
  raised_first es := 1%nat;
|}.

End Sim.

(** ** Properties *)

Section Properties.
Context `{!Const, !OpenEVSEhttp, !Host}.

(** *** Exceptions *)

Lemma isinstance_Exception e : isinstance e Exception = true.
Proof.
  unfold isinstance, issubclass.
  apply bool_decide_eq_true.
  destruct (exn_class e); simpl; repeat constructor.
Qed.

Lemma matches_Exception e : matches e [Exception] = true.
Proof. unfold matches; simpl. by rewrite isinstance_Exception. Qed.

(** *** Frame rules: what a computation leaves untouched *)

Lemma preserves_ret {A B} (f : World → B) (a : A) : preserves f (ret a).
Proof. by intros w. Qed.

Lemma preserves_raise {A B} (f : World → B) e : preserves f (@raise A e).
Proof. by intros w. Qed.

Lemma preserves_lift {A B} (f : World → B) (r : result A) :
  preserves f (lift r).
Proof. by intros w. Qed.

Lemma preserves_bind {A A' B} (f : World → B) (m : M A) (k : A → M A') :
  preserves f m → (∀ a, preserves f (k a)) → preserves f (bind m k).
Proof.
  intros Hm Hk w. specialize (Hm w). unfold exec, bind in *.
  destruct (m w) as [[a|e] w']; simpl in *; [|done].
  rewrite <- Hm. apply Hk.
Qed.

Lemma preserves_try_return {A A' B} (f : World → B)
    (body : M A) classes (handler : exn → M A') (k : A → M A') :
  preserves f body → (∀ e, preserves f (handler e)) →
  (∀ a, preserves f (k a)) →
  preserves f (try_return body classes handler k).
Proof.
  intros Hm Hh Hk w. specialize (Hm w). unfold exec, try_return in *.
  destruct (body w) as [[a|e] w']; simpl in *.
  - rewrite <- Hm. apply Hk.
  - destruct (matches e classes); [|done]. rewrite <- Hm. apply Hh.
Qed.

Lemma preserves_try_except {A B} (f : World → B)
    (body : M A) classes (handler : exn → M A) :
  preserves f body → (∀ e, preserves f (handler e)) →
  preserves f (try_except body classes handler).
Proof.
  intros Hm Hh. apply preserves_try_return; [done..|].
  intros a. apply preserves_ret.
Qed.

Lemma gather_exec {A} (aws : list (M A)) w :
  exec (gather aws) w = (run_all aws w).2.
Proof. unfold exec, gather. by destruct (run_all aws w). Qed.

Lemma gather_run {A} (aws : list (M A)) w :
  run (gather aws) w = gathered (run_all aws w).1.
Proof. unfold run, gather. by destruct (run_all aws w). Qed.

Lemma preserves_gather {A B} (f : World → B) (aws : list (M A)) :
  Forall (preserves f) aws → preserves f (gather aws).
Proof.
  intros Haws w. rewrite gather_exec. revert w.
  induction Haws as [|aw aws Haw _ IH]; intros w; [done|].
  specialize (Haw w). specialize (IH (exec aw w)).
  unfold exec in *. simpl.
  destruct (aw w) as [r w1]; simpl in *.
  destruct (run_all aws w1) as [rs w2]; simpl in *. congruence.
Qed.

Lemma preserves_for_each {A B} (f : World → B) (l : list A) body :
  (∀ x, preserves f (body x)) → preserves f (for_each l body).
Proof.
  intros Hbody. induction l as [|x l IH]; simpl.
  - apply preserves_ret.
  - apply preserves_bind; [apply Hbody | intros _; apply IH].
Qed.

Lemma preserves_called {B} (f : World → B) c :
  (∀ w, f (add_call c w) = f w) → preserves f (called c).
Proof. intros Hf w. apply Hf. Qed.

Lemma preserves_logger {B} (f : World → B) l fmt :
  (∀ w, f (add_log l fmt w) = f w) → preserves f (logger l fmt).
Proof. intros Hf w. apply Hf. Qed.

(** The primitives on [hass.data] leave alone whatever does not look at
    [hass.data]. *)
Lemma preserves_setdefault {B} (f : World → B) domain :
  (∀ g w, f (set_hass_data g w) = f w) →
  preserves f (hass_data_setdefault domain).
Proof.
  intros Hf w. unfold exec, hass_data_setdefault; simpl.
  destruct (_ !! _); [done|apply Hf].
Qed.

Lemma preserves_setitem {B} (f : World → B) domain eid record :
  (∀ g w, f (set_hass_data g w) = f w) →
  preserves f (hass_data_setitem domain eid record).
Proof.
  intros Hf w. unfold exec, hass_data_setitem.
  destruct (_ !! _); [apply Hf|done].
Qed.

Lemma preserves_pop {B} (f : World → B) domain eid :
  (∀ g w, f (set_hass_data g w) = f w) →
  preserves f (hass_data_pop domain eid).
Proof.
  intros Hf w. unfold exec, hass_data_pop.
  destruct (_ !! _) as [d|]; [|done]. destruct (_ !! _); [apply Hf|done].
Qed.

Lemma preserves_gather_map {A B X} (f : World → B) (g : X → M A) (l : list X) :
  (∀ x, preserves f (g x)) → preserves f (gather (map g l)).
Proof.
  intros Hg. apply preserves_gather, Forall_map, Forall_forall.
  intros x _. apply Hg.
Qed.

Lemma constructed_app cs cs' :
  constructed (cs ++ cs') = constructed cs ++ constructed cs'.
Proof. apply omap_app. Qed.

Lemma coordinator_inits_app cs cs' :
  coordinator_inits (cs ++ cs') = coordinator_inits cs ++ coordinator_inits cs'.
Proof. apply omap_app. Qed.

Create HintDb frame.

Ltac frame_side :=
  first
    [ solve [auto]
    | intros; cbn;
      rewrite ?constructed_app, ?coordinator_inits_app; cbn;
      rewrite ?app_nil_r; reflexivity ].

Ltac head_of t := lazymatch t with ?g _ => head_of g | _ => t end.

Ltac frame_step :=
  lazymatch goal with
  | |- preserves _ (bind _ _) => apply preserves_bind; [|intros ?]
  | |- preserves _ (ret _) => apply preserves_ret
  | |- preserves _ (raise _) => apply preserves_raise
  | |- preserves _ (lift _) => apply preserves_lift
  | |- preserves _ (try_except _ _ _) =>
      apply preserves_try_except; [|intros ?]
  | |- preserves _ (try_return _ _ _ _) =>
      apply preserves_try_return; [|intros ?|intros ?]
  | |- preserves _ (called _) => apply preserves_called; frame_side
  | |- preserves _ (logger _ _) => apply preserves_logger; frame_side
  | |- preserves _ (gather (map _ _)) =>
      apply preserves_gather_map; intros ?
  | |- preserves _ (for_each _ _) =>
      apply preserves_for_each; intros ?
  | |- preserves _ (hass_data_setdefault _) =>
      apply preserves_setdefault; frame_side
  | |- preserves _ (hass_data_setitem _ _ _) =>
      apply preserves_setitem; frame_side
  | |- preserves _ (hass_data_pop _ _) =>
      apply preserves_pop; frame_side
  | |- preserves _ (if ?b then _ else _) => destruct b
  | |- preserves _ (match ?x with _ => _ end) => destruct x
  | |- preserves _ ?m =>
      first [ solve [auto with frame]
            | let h := head_of m in unfold h ]
  end.

Ltac frame := repeat frame_step.

Lemma preserves_get_sensors_loop {B} (f : World → B) charger sensors data :
  (∀ l fmt w, f (add_log l fmt w) = f w) →
  (∀ attr w, f (add_call (CGetattr attr) w) = f w) →
  preserves f (get_sensors_loop charger sensors data).
Proof.
  intros Hlog Hattr.
  revert data. induction sensors as [|sensor sensors IH]; intros data; simpl.
  - frame.
  - apply preserves_bind; [frame | intros d; apply IH].
Qed.

#[local] Hint Extern 1 (preserves _ (get_sensors_loop _ _ _)) =>
  apply preserves_get_sensors_loop; frame_side : frame.

Lemma states_get_sensors config : preserves mod_states (get_sensors config).
Proof. frame. Qed.

Lemma states_get_firmware config : preserves mod_states (get_firmware config).
Proof. frame. Qed.

Lemma states_async_setup_entry e : preserves mod_states (async_setup_entry e).
Proof. frame. Qed.

Lemma states_async_unload_entry e : preserves mod_states (async_unload_entry e).
Proof. frame. Qed.

Lemma states_update_listener e : preserves mod_states (update_listener e).
Proof. frame. Qed.

Lemma states_send_command handler command :
  preserves mod_states (send_command handler command).
Proof. frame. Qed.

Lemma states_OpenEVSEUpdateCoordinator interval config :
  preserves mod_states (OpenEVSEUpdateCoordinator interval config).
Proof. frame. Qed.

Lemma states__async_update_data self :
  preserves mod_states (_async_update_data self).
Proof. frame. Qed.

Lemma states_connect host username password :
  preserves mod_states (connect host username password).
Proof. frame. Qed.

(** *** Running a sequence *)

Lemma run_bind {A B} (m : M A) (k : A → M B) w :
  run (bind m k) w =
    match run m w with
    | Return a => run (k a) (exec m w)
    | Raise e => Raise e
    end.
Proof. unfold run, exec, bind. by destruct (m w) as [[a|e] w']. Qed.

Lemma exec_bind {A B} (m : M A) (k : A → M B) w :
  exec (bind m k) w =
    match run m w with
    | Return a => exec (k a) (exec m w)
    | Raise e => exec m w
    end.
Proof. unfold run, exec, bind. by destruct (m w) as [[a|e] w']. Qed.

Lemma run_try_return {A B} (body : M A) classes (handler : exn → M B) k w :
  run (try_return body classes handler k) w =
    match run body w with
    | Return a => run (k a) (exec body w)
    | Raise e =>
        if matches e classes then run (handler e) (exec body w) else Raise e
    end.
Proof.
  unfold run, exec, try_return. destruct (body w) as [[a|e] w']; simpl; [done|].
  by destruct (matches e classes).
Qed.

Lemma run_OpenEVSE host username password w :
  run (OpenEVSE host username password) w =
    Return (client_init host username password).
Proof. reflexivity. Qed.

Lemma run_update charger w : run (update charger) w = client_update charger.
Proof. reflexivity. Qed.

Lemma run_getattr charger attr w :
  run (getattr charger attr) w = client_getattr charger attr.
Proof. reflexivity. Qed.

(** *** The client is built from the entry's credentials *)

Lemma constructed_OpenEVSE {A} host username password (k : client → M A) w :
  (∀ c, preserves (λ w, constructed (calls w)) (k c)) →
  constructed (calls (exec (bind (OpenEVSE host username password) k) w)) =
  constructed (calls w) ++ [(host, username, password)].
Proof.
  intros Hk. unfold exec, bind, OpenEVSE, called, ret; simpl.
  specialize (Hk (client_init host username password)
                 (add_call (COpenEVSE host username password) w)).
  unfold exec in Hk. rewrite Hk. simpl. by rewrite constructed_app.
Qed.

(** C6. [get_sensors] and [get_firmware] build the client exactly once,
    from the host, the user name and the password read from the entry's
    data, as they are; [connect] builds it from its own arguments, as
    they are. *)
Theorem credentials_pass_through config host username password w :
  constructed (calls (exec (get_sensors config) w)) =
    constructed (calls w) ++ [credentials config] ∧
  constructed (calls (exec (get_firmware config) w)) =
    constructed (calls w) ++ [credentials config] ∧
  constructed (calls (exec (connect host (Some username) (Some password)) w)) =
    constructed (calls w) ++ [(host, username, password)] ∧
  run (connect host (Some username) (Some password)) w =
    Return (client_init host username password).
Proof.
  split_and!.
  - unfold get_sensors. apply constructed_OpenEVSE. intros c. frame.
  - unfold get_firmware. rewrite exec_bind. simpl.
    apply (constructed_OpenEVSE _ _ _ _ (add_log _ _ w)). intros c. frame.
  - unfold exec, connect, OpenEVSE, bind, called, ret; simpl.
    by rewrite constructed_app.
  - reflexivity.
Qed.

(** *** A failing update *)

Lemma get_sensors_update_raises config e w :
  client_update (client_of config) = Raise e →
  run (get_sensors config) w = Return ∅.
Proof.
  intros Hu. unfold client_of in Hu.
  unfold run, get_sensors, try_return, bind, OpenEVSE, update,
    called, lift, logger, ret; cbn -[matches].
  rewrite Hu. by rewrite matches_Exception.
Qed.

Lemma get_firmware_update_raises config e w :
  client_update (client_of config) = Raise e →
  run (get_firmware config) w = Return (PStr "", PStr "").
Proof.
  intros Hu. unfold client_of in Hu.
  unfold run, get_firmware, try_return, bind, OpenEVSE, update,
    called, lift, logger, ret; cbn -[matches].
  rewrite Hu. by rewrite matches_Exception.
Qed.

(** C2. When [update()] raises, [get_sensors] returns the empty dict and
    [get_firmware] returns the pair of empty strings: the exception does
    not leave either function. *)
Theorem update_failure_is_caught config e w :
  client_update (client_of config) = Raise e →
  run (get_sensors config) w = Return ∅ ∧
  run (get_firmware config) w = Return (PStr "", PStr "").
Proof.
  intros Hu. split.
  - by apply get_sensors_update_raises with e.
  - by apply get_firmware_update_raises with e.
Qed.

(** C8. [_async_update_data] raises [UpdateFailed] exactly when the job
    running [get_sensors] raises, and hands back the job's dict as it is
    when the job returns; with a device whose [update()] raises, the
    cycle returns the empty dict. *)
Theorem async_update_data_outcomes self w :
  let job :=
    run (async_add_executor_job "get_sensors" (get_sensors (config self))) w in
  let r := run (_async_update_data self) w in
  (∀ d, job = Return d → r = Return d) ∧
  (∀ e, job = Raise e → r = Raise (exc_from UpdateFailed e)) ∧
  ((∃ x, r = Raise x ∧ exn_class x = UpdateFailed) ↔ (∃ e, job = Raise e)) ∧
  (∀ x, r = Raise x → exn_class x = UpdateFailed) ∧
  (∀ e, client_update (client_of (config self)) = Raise e → r = Return ∅).
Proof.
  intros job r.
  assert (Hr : r = match job with
                   | Return d => Return d
                   | Raise e => Raise (exc_from UpdateFailed e)
                   end).
  { subst r job. unfold _async_update_data, try_except.
    rewrite run_try_return.
    destruct (run _ w) as [d|e]; [done|]. by rewrite matches_Exception. }
  split_and!.
  - intros d Hd. by rewrite Hr, Hd.
  - intros e He. by rewrite Hr, He.
  - rewrite Hr. destruct job as [d|e]; split.
    + intros (x & Hx & _). discriminate.
    + intros (e & He). discriminate.
    + eauto.
    + intros _. eexists. split; [reflexivity|done].
  - intros x. rewrite Hr. destruct job as [d|e]; [discriminate|].
    by intros [= <-].
  - intros e He. rewrite Hr. subst job.
    unfold async_add_executor_job. rewrite run_bind. simpl.
    by rewrite (get_sensors_update_raises _ _ _ He).
Qed.

(** *** The loop over the sensors *)

Lemma get_sensors_body_run charger sensor data w :
  run (get_sensors_body charger sensor data) w =
    match sensor_read charger sensor with
    | Return v => Return (<[sensor := v]> data)
    | Raise e => if caught e then Return data else Raise e
    end.
Proof.
  unfold get_sensors_body, try_except, sensor_read, sensor_types_getitem.
  rewrite run_bind, run_try_return.
  destruct (sensor_types_lookup sensor) as [description|]; cbn -[matches].
  - destruct (decide (sensor = "current_power")); cbn -[matches].
    + by rewrite <- insert_union_l, (left_id_L ∅ (∪)).
    + unfold run, exec, bind, getattr, called, lift; cbn -[matches].
      destruct (client_getattr _ _) as [v|e]; cbn -[matches].
      * by rewrite <- insert_union_l, (left_id_L ∅ (∪)).
      * fold (caught e). destruct (caught e); cbn; [|done].
        by rewrite (left_id_L ∅ (∪)).
  - unfold caught. change (matches (Exn KeyError sensor) _) with true. cbn.
    by rewrite (left_id_L ∅ (∪)).
Qed.

Lemma get_sensors_loop_run charger sensors data w :
  run (get_sensors_loop charger sensors data) w =
    match first_uncaught charger sensors with
    | None => Return (readings charger sensors data)
    | Some e => Raise e
    end.
Proof.
  revert data w. induction sensors as [|sensor sensors IH]; intros data w.
  - reflexivity.
  - simpl. rewrite run_bind, get_sensors_body_run.
    destruct (sensor_read charger sensor) as [v|e]; [apply IH|].
    destruct (caught e); [apply IH | done].
Qed.

Lemma first_uncaught_None charger sensors :
  first_uncaught charger sensors = None ↔ reads_ok charger sensors.
Proof.
  unfold reads_ok. induction sensors as [|s sensors IH]; simpl.
  - split; [|done]. intros _ sensor e Hin. by apply elem_of_nil in Hin.
  - destruct (sensor_read charger s) as [v|e] eqn:Hs.
    + rewrite IH. split.
      * intros Hok sensor e [->|Hin]%elem_of_cons He; [congruence|eauto].
      * intros Hok sensor e Hin. apply Hok. by right.
    + destruct (caught e) eqn:Hc.
      * rewrite IH. split.
        -- intros Hok sensor e' [->|Hin]%elem_of_cons He; [congruence|eauto].
        -- intros Hok sensor e' Hin. apply Hok. by right.
      * split; [done|]. intros Hok.
        specialize (Hok s e (list_elem_of_here _ _) Hs). congruence.
Qed.

Lemma readings_lookup charger sensors data s :
  readings charger sensors data !! s =
    match sensor_read charger s with
    | Return v => if decide (s ∈ sensors) then Some v else data !! s
    | Raise _ => data !! s
    end.
Proof.
  unfold readings. revert data.
  induction sensors as [|x sensors IH]; intros data; cbn [foldl].
  - destruct (sensor_read charger s); [|done].
    rewrite decide_False; [done|]. apply not_elem_of_nil.
  - rewrite IH. destruct (decide (x = s)) as [->|Hne].
    + destruct (sensor_read charger s) as [v|e]; [|done].
      rewrite (decide_True (P := s ∈ s :: sensors)) by left.
      rewrite lookup_insert_eq. by destruct (decide (s ∈ sensors)).
    + assert (Hd : (match sensor_read charger x with
                    | Return v => <[x:=v]> data
                    | Raise _ => data
                    end) !! s = data !! s).
      { destruct (sensor_read charger x); [by rewrite lookup_insert_ne|done]. }
      rewrite Hd. destruct (sensor_read charger s) as [v|e]; [|done].
      destruct (decide (s ∈ sensors)) as [Hin|Hin].
      * rewrite decide_True; [done|]. by right.
      * rewrite decide_False; [done|].
        intros [?|?]%elem_of_cons; [congruence|done].
Qed.

Lemma get_sensors_run config charger w :
  client_update (client_of config) = Return charger →
  run (get_sensors config) w =
    match first_uncaught charger SENSOR_TYPES.*1 with
    | None => Return (readings charger SENSOR_TYPES.*1 ∅)
    | Some e => Raise e
    end.
Proof.
  intros Hu. unfold client_of in Hu.
  unfold get_sensors. rewrite run_bind, run_OpenEVSE.
  rewrite run_try_return, run_update, Hu.
  rewrite run_bind, get_sensors_loop_run.
  by destruct (first_uncaught _ _).
Qed.

Lemma sensor_types_lookup_elem sensor description :
  sensor_types_lookup sensor = Some description →
  sensor ∈ SENSOR_TYPES.*1.
Proof.
  unfold sensor_types_lookup.
  destruct (list_find _ _) as [[i [s d]]|] eqn:Hf; [|done].
  apply list_find_Some in Hf as (Hi & Hs & _). simpl in Hs. subst s.
  intros _. apply list_elem_of_fmap. exists (sensor, d). split; [done|].
  by eapply list_elem_of_lookup_2.
Qed.

Lemma get_sensors_propagates config charger e w :
  client_update (client_of config) = Return charger →
  first_uncaught charger SENSOR_TYPES.*1 = Some e →
  run (get_sensors config) w = Raise e.
Proof. intros Hu He. by rewrite (get_sensors_run _ _ _ Hu), He. Qed.

(** C3, as the code has it.  The loop catches [RequestException],
    [ValueError] and [KeyError]: a sensor whose reading raises one of
    them is left out and the other sensors are still read.  So, once
    [update()] has succeeded, [get_sensors] returns, with exactly the
    sensors read without an exception, provided no reading raises an
    exception of another class. *)
Theorem get_sensors_skips_caught config charger w :
  client_update (client_of config) = Return charger →
  reads_ok charger SENSOR_TYPES.*1 →
  ∃ data, run (get_sensors config) w = Return data ∧
    ∀ sensor, data !! sensor =
      if decide (sensor ∈ SENSOR_TYPES.*1) then
        match sensor_read charger sensor with
        | Return v => Some v
        | Raise _ => None
        end
      else None.
Proof.
  intros Hu Hok. apply first_uncaught_None in Hok.
  rewrite (get_sensors_run _ _ _ Hu), Hok.
  eexists. split; [reflexivity|]. intros sensor.
  rewrite readings_lookup, lookup_empty.
  destruct (sensor_read charger sensor); by destruct (decide _).
Qed.

(** C5, as the code has it.  When [update()] has succeeded, every dict
    that [get_sensors] returns holds, under the name of a sensor of
    [SENSOR_TYPES] other than ["current_power"], the value of the
    attribute that the sensor's key names, if reading that attribute does
    not raise; under ["current_power"] it holds [None], whatever the
    client has under that sensor's key.  And [get_sensors] does return a
    dict when no reading raises an exception that the loop does not
    catch. *)
Theorem get_sensors_value config charger sensor description w :
  client_update (client_of config) = Return charger →
  sensor_types_lookup sensor = Some description →
  (reads_ok charger SENSOR_TYPES.*1 →
   ∃ data, run (get_sensors config) w = Return data) ∧
  (∀ data, run (get_sensors config) w = Return data →
     (sensor = "current_power" → data !! sensor = Some PNone) ∧
     (sensor ≠ "current_power" →
      ∀ v, client_getattr charger (key description) = Return v →
           data !! sensor = Some v)).
Proof.
  intros Hu Hd. rewrite (get_sensors_run _ _ _ Hu). split.
  - intros Hok. apply first_uncaught_None in Hok. rewrite Hok. eauto.
  - intros data. destruct (first_uncaught _ _); [done|]. intros [= <-].
    rewrite readings_lookup. unfold sensor_read. rewrite Hd.
    pose proof (sensor_types_lookup_elem _ _ Hd) as Hin.
    split.
    + intros Hs. rewrite (decide_True (P := sensor = "current_power")) by done.
      by rewrite decide_True.
    + intros Hs v Hv.
      rewrite (decide_False (P := sensor = "current_power")) by done.
      rewrite Hv. by rewrite decide_True.
Qed.

(** *** The update listener *)

Lemma dict_eqb_refl (d : dict) : dict_eqb d d = true.
Proof. by apply bool_decide_eq_true. Qed.


(** *** Unloading an entry *)

Lemma gather_unloads_run e platforms w :
  run (gather (map (async_forward_entry_unload e) platforms)) w =
    gathered (map (forward_entry_unload (entry_id e)) platforms).
Proof.
  rewrite gather_run. f_equal. revert w.
  induction platforms as [|p platforms IH]; intros w; [done|].
  specialize (IH (add_call (CForwardEntryUnload (entry_id e) p) w)).
  cbn in *.
  destruct (run_all _ _) as [rs w2]. cbn in *. by rewrite IH.
Qed.

Lemma gather_unloads_hass_data e platforms :
  preserves hass_data (gather (map (async_forward_entry_unload e) platforms)).
Proof. frame. Qed.

Lemma raised_nil {A} (rs : list (result A)) :
  raised rs = [] ↔ rs = Return <$> returned rs.
Proof.
  induction rs as [|[a|x] rs IH].
  - by split.
  - change (raised (Return a :: rs)) with (raised rs).
    change (returned (Return a :: rs)) with (a :: returned rs).
    rewrite IH, fmap_cons.
    split; [intros Hrs; by f_equal | by intros [= Hrs]].
  - change (returned (Raise x :: rs)) with (returned rs).
    split; [done|]. by destruct (returned rs).
Qed.

Lemma raised_elem_of {A} (rs : list (result A)) x :
  x ∈ raised rs ↔ Raise x ∈ rs.
Proof.
  unfold raised. rewrite list_elem_of_omap. split.
  - intros ([a|y] & Hin & Hy); [done|]. by injection Hy as ->.
  - intros Hin. by exists (Raise x).
Qed.

Lemma gathered_Return {A} (rs : list (result A)) l :
  gathered rs = Return l ↔ rs = Return <$> l.
Proof.
  unfold gathered. split.
  - destruct (raised rs) eqn:Hr; [|done]. intros [= <-].
    by apply raised_nil.
  - intros ->. assert (Hr : raised (Return (A:=A) <$> l) = [])
      by (by induction l).
    rewrite Hr. f_equal. induction l as [|a l IH]; [done|].
    cbn. f_equal. apply IH. by induction l.
Qed.

Lemma gathered_Raise {A} (rs : list (result A)) x :
  gathered rs = Raise x → Raise x ∈ rs.
Proof.
  unfold gathered. intros Hg. apply raised_elem_of.
  destruct (raised rs) as [|e es]; [done|]. injection Hg as <-.
  destruct ((e :: es) !! raised_first (e :: es)) as [y|] eqn:Hy; cbn.
  - by eapply list_elem_of_lookup_2.
  - by left.
Qed.

Lemma gathered_raises {A} (rs : list (result A)) x :
  Raise x ∈ rs → ∃ y, gathered rs = Raise y.
Proof.
  intros Hin%raised_elem_of. unfold gathered.
  destruct (raised rs) as [|e es]; [|by eexists].
  by apply elem_of_nil in Hin.
Qed.

Lemma gathered_succeeds (rs : list (result bool)) :
  Forall unload_succeeds rs ↔
  ∃ l, gathered rs = Return l ∧ forallb id l = true.
Proof.
  unfold unload_succeeds. split.
  - intros Hall. exists (replicate (length rs) true). split.
    + apply gathered_Return.
      induction Hall as [|r rs -> _ IH]; [done|]. cbn. by f_equal.
    + clear Hall. induction rs as [|r rs IH]; [done | exact IH].
  - intros (l & ->%gathered_Return & Hall).
    induction l as [|b l IH]; [by constructor|].
    cbn in Hall. apply andb_true_iff in Hall as [Hb Hall].
    unfold id in Hb. subst b. constructor; [done|]. by apply IH.
Qed.

(** C10. Where the entry has its record in [hass.data[DOMAIN]],
    [async_unload_entry] returns [True] exactly when every platform
    unloads with success, and then the record is removed; when some
    platform does not, [hass.data] is as it was. *)
Theorem unload_is_atomic e w d record :
  hass_data w !! DOMAIN = Some d →
  d !! entry_id e = Some record →
  let r := run (async_unload_entry e) w in
  let w' := exec (async_unload_entry e) w in
  (r = Return true ↔ Forall unload_succeeds (unloads e)) ∧
  (Forall unload_succeeds (unloads e) →
     hass_data w' = <[DOMAIN := delete (entry_id e) d]> (hass_data w)) ∧
  (¬ Forall unload_succeeds (unloads e) → hass_data w' = hass_data w).
Proof.
  intros Hd Hrec r w'. subst r w'.
  set (w0 := add_log DEBUG
    "Attempting to unload entities from the %s integration" w).
  pose proof (gather_unloads_run e PLATFORMS w0) as Hrun.
  pose proof (gather_unloads_hass_data e PLATFORMS w0) as Hdata.
  fold (unloads e) in Hrun. rewrite gathered_succeeds.
  unfold run, exec, async_unload_entry, bind, logger in *. cbn in *.
  fold w0. destruct (gather _ w0) as [[results|x] w1]; cbn in *.
  - destruct (forallb id results) eqn:Hall; cbn.
    + unfold hass_data_pop. cbn. rewrite Hdata. change (hass_data w0) with (hass_data w).
      rewrite Hd, Hrec. cbn. rewrite Hdata.
      split_and!; [split; eauto | done |].
      intros Hno. destruct Hno. eauto.
    + split_and!.
      * split; [done|]. intros (l & Hl & Hl'). congruence.
      * intros (l & Hl & Hl'). congruence.
      * done.
  - split_and!.
    + split; [done|]. intros (l & Hl & _). congruence.
    + intros (l & Hl & _). congruence.
    + done.
Qed.

(** *** Setting up an entry *)

Lemma async_refresh_run self w :
  ∃ c, run (async_refresh self) w = Return c ∧
       interval c = interval self ∧ update_interval c = update_interval self.
Proof.
  unfold async_refresh, try_except. rewrite run_bind. cbn [run called fst].
  rewrite run_try_return, run_bind.
  destruct (run (_async_update_data self) _) as [d|x].
  - eexists. split; [reflexivity|done].
  - rewrite matches_Exception. eexists. split; [reflexivity|done].
Qed.

Lemma hass_data_setitem_run domain eid record w :
  run (hass_data_setitem domain eid record) w = Return tt →
  ∃ d, hass_data (exec (hass_data_setitem domain eid record) w) !! domain =
         Some d ∧ d !! eid = Some record.
Proof.
  unfold run, exec, hass_data_setitem.
  destruct (hass_data w !! domain) as [d|]; [|done]. intros _. cbn.
  exists (<[eid := record]> d). by rewrite !lookup_insert_eq.
Qed.

(** A set-up that returns has stored the entry's record, with the
    coordinator built at the start. *)
Lemma async_setup_entry_stores e w :
  run (async_setup_entry e) w = Return true →
  ∃ d c, hass_data (exec (async_setup_entry e) w) !! DOMAIN = Some d ∧
         d !! entry_id e = Some (<[COORDINATOR := c]> ∅) ∧
         interval c = timedelta_seconds 10 ∧
         update_interval c = timedelta_seconds 10.
Proof.
  intros Hrun. unfold async_setup_entry in *.
  rewrite run_bind in Hrun. rewrite exec_bind.
  cbn [run hass_data_setdefault fst] in *.
  rewrite run_bind in Hrun. rewrite exec_bind.
  cbn [run logger fst] in *.
  rewrite run_bind in Hrun. rewrite exec_bind.
  cbn [run called fst] in *.
  rewrite run_bind in Hrun. rewrite exec_bind.
  cbn [run OpenEVSEUpdateCoordinator bind logger called ret fst] in *.
  match type of Hrun with
  | context [exec (OpenEVSEUpdateCoordinator 10 e) ?w0] =>
      set (w4 := exec (OpenEVSEUpdateCoordinator 10 e) w0) in *
  end.
  match type of Hrun with
  | context [async_refresh ?c] => set (c0 := c) in *
  end.
  rewrite run_bind in Hrun. rewrite exec_bind.
  destruct (async_refresh_run c0 w4) as (c & Hc & Hi & Hu).
  rewrite Hc in *.
  rewrite run_bind in Hrun. rewrite exec_bind.
  destruct (last_update_success c); cbn [negb] in *; [|done].
  cbn [run ret fst] in *.
  set (w5 := exec (ret ()) (exec (async_refresh c0) w4)) in *.
  rewrite run_bind in Hrun. rewrite exec_bind.
  destruct (run (hass_data_setitem _ _ _) w5) as [[]|x] eqn:Hset; [|done].
  apply hass_data_setitem_run in Hset as (d & Hd & Hrec).
  match goal with
  | |- context [hass_data (exec ?m ?w6)] =>
      assert (Hrest : preserves hass_data m) by frame;
      rewrite (Hrest w6)
  end.
  exists d, c. by rewrite Hd, Hrec, Hi, Hu.
Qed.

(** C9. [async_setup_entry] initialises the coordinator once, with an
    update interval of [timedelta(seconds=10)], that is ten seconds,
    whatever the entry holds; the coordinator it stores for the entry has
    that interval. *)
Theorem polling_interval_is_ten e w :
  let w' := exec (async_setup_entry e) w in
  coordinator_inits (calls w') =
    coordinator_inits (calls w) ++
    [("OpenEVSE (" +:+ py_str (dict_get (data e) CONF_NAME) +:+ ")",
      timedelta_seconds 10)] ∧
  timedelta_seconds 10 =
    {| td_days := 0; td_seconds := 10; td_microseconds := 0 |} ∧
  (run (async_setup_entry e) w = Return true →
   ∃ d c, hass_data w' !! DOMAIN = Some d ∧
          d !! entry_id e = Some (<[COORDINATOR := c]> ∅) ∧
          interval c = timedelta_seconds 10 ∧
          update_interval c = timedelta_seconds 10).
Proof.
  intros w'. subst w'.
  split_and!; [| reflexivity | apply async_setup_entry_stores].
  unfold async_setup_entry.
  rewrite exec_bind. cbn [run hass_data_setdefault fst].
  rewrite exec_bind. cbn [run logger fst].
  rewrite exec_bind. cbn [run called fst].
  rewrite exec_bind.
  cbn [run OpenEVSEUpdateCoordinator bind logger called ret fst].
  match goal with
  | |- coordinator_inits (calls (exec ?m ?w1)) = _ =>
      assert (Hrest : preserves (λ w, coordinator_inits (calls w)) m)
        by frame;
      rewrite (Hrest w1)
  end.
  unfold exec at 1. cbn -[exec timedelta_seconds].
  rewrite !coordinator_inits_app. cbn -[exec timedelta_seconds].
  f_equal.
  repeat match goal with
  | |- context [coordinator_inits (calls (exec ?m ?w0))] =>
      let Hp := fresh in
      assert (Hp : preserves (λ w, coordinator_inits (calls w)) m) by frame;
      rewrite (Hp w0); clear Hp
  end.
  reflexivity.
Qed.

(** *** The handler's answer *)


(** A handler that raises: the exception leaves [send_command] as it is. *)
Lemma send_command_handler_raises handler command e w :
  handler command = Raise e →
  run (send_command handler command) w = Raise e.
Proof.
  intros Hreply. unfold run, send_command, bind, called, lift; simpl.
  by rewrite Hreply.
Qed.

(** *** The table of states *)

(** C4. The table [states] has the thirteen codes 0 to 10, 254 and 255
    as its keys, each with its name, and no function of the module
    changes the module's global. *)
Theorem states_table :
  dom states = list_to_set [0; 1; 2; 3; 4; 5; 6; 7; 8; 9; 10; 254; 255] ∧
  map_to_list states ≡ₚ
    [ (0, "unknown"); (1, "not connected"); (2, "connected");
      (3, "charging"); (4, "vent required"); (5, "diode check failed");
      (6, "gfci fault"); (7, "no ground"); (8, "stuck relay");
      (9, "gfci self-test failure"); (10, "over temperature");
      (254, "sleeping"); (255, "disabled") ] ∧
  mod_states init_world = states ∧
  preserves mod_states async_setup ∧
  (∀ e, preserves mod_states (async_setup_entry e)) ∧
  (∀ config, preserves mod_states (get_firmware config)) ∧
  (∀ e, preserves mod_states (async_unload_entry e)) ∧
  (∀ e, preserves mod_states (update_listener e)) ∧
  (∀ config, preserves mod_states (get_sensors config)) ∧
  (∀ interval config,
     preserves mod_states (OpenEVSEUpdateCoordinator interval config)) ∧
  (∀ self, preserves mod_states (_async_update_data self)) ∧
  (∀ handler command, preserves mod_states (send_command handler command)) ∧
  (∀ host username password,
     preserves mod_states (connect host username password)).
Proof.
  split_and!; [reflexivity | | reflexivity | done | ..].
  - unfold states. rewrite map_to_list_to_map; [done|].
    by apply (bool_decide_unpack _).
  - apply states_async_setup_entry.
  - apply states_get_firmware.
  - apply states_async_unload_entry.
  - apply states_update_listener.
  - apply states_get_sensors.
  - apply states_OpenEVSEUpdateCoordinator.
  - apply states__async_update_data.
  - apply states_send_command.
  - apply states_connect.
Qed.

(** ** Further properties *)

(** *** Outcomes that do not depend on the state *)

Lemma get_sensors_outcome config w :
  run (get_sensors config) w = sensors_outcome config.
Proof.
  unfold sensors_outcome.
  destruct (client_update (client_of config)) as [charger|e] eqn:Hu.
  - by apply get_sensors_run.
  - by apply get_sensors_update_raises with e.
Qed.

Lemma get_firmware_outcome config w :
  run (get_firmware config) w = firmware_outcome config.
Proof.
  unfold firmware_outcome.
  destruct (client_update (client_of config)) as [charger|e] eqn:Hu.
  - unfold client_of in Hu. unfold get_firmware.
    rewrite run_bind. cbn [run logger fst].
    rewrite run_bind, run_OpenEVSE, run_try_return, run_update, Hu.
    rewrite run_bind, run_getattr.
    destruct (client_getattr charger "wifi_firmware"); [|done].
    rewrite run_bind, run_getattr.
    by destruct (client_getattr charger "openevse_firmware").
  - by apply get_firmware_update_raises with e.
Qed.

Lemma async_update_data_run self w :
  run (_async_update_data self) w =
    match sensors_outcome (config self) with
    | Return d => Return d
    | Raise e => Raise (exc_from UpdateFailed e)
    end.
Proof.
  unfold _async_update_data, try_except, async_add_executor_job.
  rewrite run_try_return, run_bind. cbn [run called fst].
  rewrite get_sensors_outcome.
  destruct (sensors_outcome _) as [d|e]; [done|].
  by rewrite matches_Exception.
Qed.

Lemma async_refresh_outcome self w :
  run (async_refresh self) w =
    Return
      match sensors_outcome (config self) with
      | Return d =>
          {| interval := interval self; name := name self;
             config := config self; update_interval := update_interval self;
             last_update_success := true; coordinator_data := Some d |}
      | Raise _ =>
          {| interval := interval self; name := name self;
             config := config self; update_interval := update_interval self;
             last_update_success := false;
             coordinator_data := coordinator_data self |}
      end.
Proof.
  unfold async_refresh, try_except. rewrite run_bind. cbn [run called fst].
  rewrite run_try_return, run_bind, async_update_data_run.
  destruct (sensors_outcome _) as [d|e]; [done|].
  by rewrite matches_Exception.
Qed.

(** *** Setting up an entry, step by step *)

Lemma hass_data_setdefault_exec domain w :
  hass_data (exec (hass_data_setdefault domain) w) =
    <[domain := default ∅ (hass_data w !! domain)]> (hass_data w).
Proof.
  unfold exec, hass_data_setdefault; simpl.
  destruct (hass_data w !! domain) as [d|] eqn:Hd; simpl; [|done].
  by rewrite insert_id.
Qed.

Lemma for_each_run {A} (l : list A) (c : A → call) w :
  run (for_each l (λ x, called (c x))) w = Return tt.
Proof.
  revert w. induction l as [|x l IH]; intros w; [done|].
  simpl. rewrite run_bind. cbn [run called fst]. apply IH.
Qed.

Lemma for_each_calls {A} (l : list A) (c : A → call) w :
  calls (exec (for_each l (λ x, called (c x))) w) = calls w ++ (c <$> l).
Proof.
  revert w. induction l as [|x l IH]; intros w; simpl.
  - by rewrite app_nil_r.
  - rewrite exec_bind. cbn [run called fst]. rewrite IH.
    unfold exec; simpl. by rewrite <- app_assoc.
Qed.

Lemma hass_data_setitem_outcome domain eid record w :
  run (hass_data_setitem domain eid record) w =
    match hass_data w !! domain with
    | Some _ => Return tt
    | None => Raise (Exn KeyError domain)
    end.
Proof. unfold run, hass_data_setitem. by destruct (_ !! _). Qed.

Lemma hass_data_setitem_exec domain eid record w :
  hass_data (exec (hass_data_setitem domain eid record) w) =
    match hass_data w !! domain with
    | Some d => <[domain := <[eid := record]> d]> (hass_data w)
    | None => hass_data w
    end.
Proof. unfold exec, hass_data_setitem. by destruct (_ !! _). Qed.

(** Pushes [hass_data] through the steps that leave it alone. *)
Ltac skip_frames :=
  repeat match goal with
  | |- context [hass_data (exec ?m ?w0)] =>
      let Hp := fresh in
      assert (Hp : preserves hass_data m) by frame;
      rewrite (Hp w0); clear Hp
  end.

Lemma async_setup_entry_run e w :
  run (async_setup_entry e) w =
    match sensors_outcome e with
    | Raise _ => Raise (exc ConfigEntryNotReady)
    | Return _ =>
        match firmware_outcome e with
        | Raise x => Raise x
        | Return _ =>
            match data e !! CONF_NAME with
            | None => Raise (Exn KeyError CONF_NAME)
            | Some _ => Return true
            end
        end
    end.
Proof.
  unfold async_setup_entry.
  rewrite run_bind. cbn [run hass_data_setdefault fst].
  rewrite run_bind. cbn [run logger fst].
  rewrite run_bind. cbn [run called fst].
  rewrite run_bind.
  cbn [run OpenEVSEUpdateCoordinator bind logger called ret fst].
  rewrite run_bind, async_refresh_outcome. cbn [config].
  destruct (sensors_outcome e) as [d|x].
  - rewrite run_bind. cbn [last_update_success negb run ret fst].
    rewrite run_bind, hass_data_setitem_outcome. skip_frames.
    rewrite hass_data_setdefault_exec, lookup_insert_eq.
    unfold async_add_executor_job.
    rewrite run_bind, run_bind. cbn [run called fst].
    rewrite get_firmware_outcome.
    destruct (firmware_outcome e) as [[model_info sw_version]|x]; [|done].
    rewrite run_bind. cbn [run called fst].
    rewrite run_bind. unfold dict_getitem at 1.
    destruct (data e !! CONF_NAME) as [device_name|]; [|done].
    cbn [run ret fst].
    rewrite run_bind. cbn [run called fst].
    rewrite run_bind. unfold create_forward_entry_setup_task.
    by rewrite for_each_run.
  - rewrite run_bind. by cbn [last_update_success negb run raise fst].
Qed.

Lemma async_setup_entry_hass_data e w :
  hass_data (exec (async_setup_entry e) w) =
    match sensors_outcome e with
    | Raise _ => <[DOMAIN := domain_records w]> (hass_data w)
    | Return d =>
        <[DOMAIN := <[entry_id e := <[COORDINATOR := first_coordinator e d]> ∅]>
                      (domain_records w)]> (hass_data w)
    end.
Proof.
  unfold async_setup_entry, domain_records.
  rewrite exec_bind. cbn [run hass_data_setdefault fst].
  rewrite exec_bind. cbn [run logger fst].
  rewrite exec_bind. cbn [run called fst].
  rewrite exec_bind.
  cbn [run OpenEVSEUpdateCoordinator bind logger called ret fst].
  rewrite exec_bind, async_refresh_outcome. cbn [config].
  destruct (sensors_outcome e) as [d|x].
  - rewrite exec_bind. cbn [last_update_success negb run ret fst].
    rewrite exec_bind, hass_data_setitem_outcome. skip_frames.
    rewrite hass_data_setdefault_exec, lookup_insert_eq.
    skip_frames. rewrite hass_data_setitem_exec. skip_frames.
    rewrite hass_data_setdefault_exec, lookup_insert_eq.
    by rewrite insert_insert_eq.
  - rewrite exec_bind. cbn [last_update_success negb run raise fst].
    skip_frames. by rewrite hass_data_setdefault_exec.
Qed.

(** *** Computations that ignore the state of the host *)

Lemma extend_nil w : extend [] [] w = w.
Proof. destruct w. unfold extend; simpl. by rewrite !app_nil_r. Qed.

Lemma extend_extend cs1 ls1 cs2 ls2 w :
  extend cs2 ls2 (extend cs1 ls1 w) = extend (cs1 ++ cs2) (ls1 ++ ls2) w.
Proof. unfold extend; simpl. by rewrite !app_assoc. Qed.

Lemma oblivious_ret {A} (a : A) : oblivious (ret a).
Proof. exists (Return a), [], []. intros w. by rewrite extend_nil. Qed.

Lemma oblivious_raise {A} e : oblivious (@raise A e).
Proof. exists (Raise e), [], []. intros w. by rewrite extend_nil. Qed.

Lemma oblivious_lift {A} (r : result A) : oblivious (lift r).
Proof. exists r, [], []. intros w. by rewrite extend_nil. Qed.

Lemma oblivious_called c : oblivious (called c).
Proof.
  exists (Return tt), [c], []. intros w.
  unfold called, add_call, extend. by rewrite app_nil_r.
Qed.

Lemma oblivious_logger l fmt : oblivious (logger l fmt).
Proof.
  exists (Return tt), [], [(l, fmt)]. intros w.
  unfold logger, add_log, extend. by rewrite app_nil_r.
Qed.

Lemma oblivious_try_return {A B} (body : M A) classes
    (handler : exn → M B) (k : A → M B) :
  oblivious body → (∀ e, oblivious (handler e)) → (∀ a, oblivious (k a)) →
  oblivious (try_return body classes handler k).
Proof.
  intros (r & cs & ls & Hm) Hh Hk. unfold try_return.
  destruct r as [a|e].
  - destruct (Hk a) as (r' & cs' & ls' & Hk').
    exists r', (cs ++ cs'), (ls ++ ls'). intros w.
    by rewrite Hm, Hk', extend_extend.
  - destruct (matches e classes) eqn:Hc.
    + destruct (Hh e) as (r' & cs' & ls' & Hh').
      exists r', (cs ++ cs'), (ls ++ ls'). intros w.
      by rewrite Hm, Hc, Hh', extend_extend.
    + exists (Raise e), cs, ls. intros w. by rewrite Hm, Hc.
Qed.

Lemma oblivious_bind {A B} (m : M A) (k : A → M B) :
  oblivious m → (∀ a, oblivious (k a)) → oblivious (bind m k).
Proof.
  intros (r & cs & ls & Hm) Hk. unfold bind. destruct r as [a|e].
  - destruct (Hk a) as (r' & cs' & ls' & Hk').
    exists r', (cs ++ cs'), (ls ++ ls'). intros w.
    by rewrite Hm, Hk', extend_extend.
  - exists (Raise e), cs, ls. intros w. by rewrite Hm.
Qed.

Ltac oblivious_step :=
  lazymatch goal with
  | |- oblivious (bind _ _) => apply oblivious_bind; [|intros ?]
  | |- oblivious (ret _) => apply oblivious_ret
  | |- oblivious (raise _) => apply oblivious_raise
  | |- oblivious (lift _) => apply oblivious_lift
  | |- oblivious (called _) => apply oblivious_called
  | |- oblivious (logger _ _) => apply oblivious_logger
  | |- oblivious (try_return _ _ _ _) =>
      apply oblivious_try_return; [|intros ?|intros ?]
  | |- oblivious (if ?b then _ else _) => destruct b
  | |- oblivious (match ?x with _ => _ end) => destruct x
  | |- oblivious ?m =>
      first [ assumption | let h := head_of m in unfold h ]
  end.

Lemma oblivious_get_sensors_loop charger sensors data :
  oblivious (get_sensors_loop charger sensors data).
Proof.
  revert data. induction sensors as [|sensor sensors IH]; intros data; simpl.
  - apply oblivious_ret.
  - apply oblivious_bind; [repeat oblivious_step | intros d; apply IH].
Qed.

Lemma oblivious_get_sensors config : oblivious (get_sensors config).
Proof.
  unfold get_sensors. apply oblivious_bind; [repeat oblivious_step|intros c].
  apply oblivious_try_return;
    [repeat oblivious_step | intros ?; repeat oblivious_step |].
  intros c'. apply oblivious_bind; [apply oblivious_get_sensors_loop|].
  intros d. repeat oblivious_step.
Qed.

Lemma oblivious_get_firmware config : oblivious (get_firmware config).
Proof. repeat oblivious_step. Qed.

Lemma oblivious_run {A} (m : M A) w w' :
  oblivious m → run m w = run m w'.
Proof. intros (r & cs & ls & Hm). unfold run. by rewrite !Hm. Qed.

Lemma oblivious_calls {A} (m : M A) w :
  oblivious m → calls (exec m w) = calls w ++ own_calls m.
Proof.
  intros (r & cs & ls & Hm). unfold own_calls, exec. by rewrite !Hm.
Qed.

Lemma oblivious_hass_data {A} (m : M A) w :
  oblivious m → hass_data (exec m w) = hass_data w.
Proof. intros (r & cs & ls & Hm). unfold exec. by rewrite Hm. Qed.

(** *** The calls of a set-up, in order *)

Lemma exec_try_return {A B} (body : M A) classes (handler : exn → M B) k w :
  exec (try_return body classes handler k) w =
    match run body w with
    | Return a => exec (k a) (exec body w)
    | Raise e =>
        if matches e classes then exec (handler e) (exec body w)
        else exec body w
    end.
Proof.
  unfold run, exec, try_return. destruct (body w) as [[a|e] w']; simpl; [done|].
  by destruct (matches e classes).
Qed.

Lemma exec_ret {A} (a : A) w : exec (ret a) w = w.
Proof. reflexivity. Qed.

Lemma exec_raise {A} e w : exec (@raise A e) w = w.
Proof. reflexivity. Qed.

Lemma calls_called c w : calls (exec (called c) w) = calls w ++ [c].
Proof. reflexivity. Qed.

Lemma calls_logger l fmt w : calls (exec (logger l fmt) w) = calls w.
Proof. reflexivity. Qed.

Lemma calls_setdefault domain w :
  calls (exec (hass_data_setdefault domain) w) = calls w.
Proof.
  assert (Hp : preserves calls (hass_data_setdefault domain)) by frame.
  apply Hp.
Qed.

Lemma calls_setitem domain eid record w :
  calls (exec (hass_data_setitem domain eid record) w) = calls w.
Proof.
  assert (Hp : preserves calls (hass_data_setitem domain eid record)) by frame.
  apply Hp.
Qed.

Lemma calls_async_update_data self w :
  calls (exec (_async_update_data self) w) =
    calls w ++ [CExecutorJob "get_sensors"] ++
    own_calls (get_sensors (config self)).
Proof.
  unfold _async_update_data, try_except, async_add_executor_job.
  rewrite exec_try_return, run_bind. cbn [run called fst].
  rewrite get_sensors_outcome.
  assert (Hc : calls (exec (called (CExecutorJob "get_sensors");;
                            get_sensors (config self)) w) =
               calls w ++ [CExecutorJob "get_sensors"] ++
               own_calls (get_sensors (config self))).
  { rewrite exec_bind. cbn [run called fst].
    rewrite oblivious_calls by apply oblivious_get_sensors.
    by rewrite calls_called, <- app_assoc. }
  destruct (sensors_outcome _) as [d|e]; [done|].
  by rewrite matches_Exception.
Qed.

Lemma calls_async_refresh self w :
  calls (exec (async_refresh self) w) =
    calls w ++ [CAsyncRefresh; CExecutorJob "get_sensors"] ++
    own_calls (get_sensors (config self)).
Proof.
  unfold async_refresh, try_except.
  rewrite exec_bind. cbn [run called fst].
  rewrite exec_try_return, run_bind, exec_bind, async_update_data_run.
  assert (Hc : calls (exec (_async_update_data self)
                        (exec (called CAsyncRefresh) w)) =
               calls w ++ [CAsyncRefresh; CExecutorJob "get_sensors"] ++
               own_calls (get_sensors (config self))).
  { by rewrite calls_async_update_data, calls_called, <- app_assoc. }
  destruct (sensors_outcome _) as [d|e]; [done|].
  by rewrite matches_Exception.
Qed.

Lemma async_setup_entry_calls e w :
  calls (exec (async_setup_entry e) w) =
    calls w ++
    [CAddUpdateListener (entry_id e);
     CCoordinatorInit
       ("OpenEVSE (" +:+ py_str (dict_get (data e) CONF_NAME) +:+ ")")
       (timedelta_seconds 10);
     CAsyncRefresh; CExecutorJob "get_sensors"] ++
    own_calls (get_sensors e) ++
    match sensors_outcome e with
    | Raise _ => []
    | Return _ =>
        [CExecutorJob "get_firmware"] ++ own_calls (get_firmware e) ++
        match firmware_outcome e with
        | Raise _ => []
        | Return (model_info, sw_version) =>
            [CGetRegistry] ++
            match data e !! CONF_NAME with
            | None => []
            | Some device_name =>
                [CDeviceGetOrCreate (entry_id e) [(DOMAIN, entry_id e)]
                   device_name "OpenEVSE"
                   ("Wifi version " +:+ py_str model_info) sw_version] ++
                (CForwardEntrySetup (entry_id e) <$> PLATFORMS)
            end
        end
    end.
Proof.
  unfold async_setup_entry.
  rewrite exec_bind. cbn [run hass_data_setdefault fst].
  rewrite exec_bind. cbn [run logger fst].
  rewrite exec_bind. cbn [run called fst].
  rewrite exec_bind.
  cbn [run OpenEVSEUpdateCoordinator bind logger called ret fst].
  rewrite exec_bind, async_refresh_outcome. cbn [config].
  set (w4 := exec (OpenEVSEUpdateCoordinator 10 e) _).
  assert (Hw4 : calls w4 =
    calls w ++
    [CAddUpdateListener (entry_id e);
     CCoordinatorInit
       ("OpenEVSE (" +:+ py_str (dict_get (data e) CONF_NAME) +:+ ")")
       (timedelta_seconds 10)]).
  { subst w4. unfold exec at 1. cbn -[exec timedelta_seconds].
    rewrite calls_called, calls_logger, calls_setdefault.
    by rewrite <- app_assoc. }
  set (c0 := mk_Coordinator _ _ _ _ _ _) in *.
  assert (Hw5 : calls (exec (async_refresh c0) w4) =
    calls w ++
    [CAddUpdateListener (entry_id e);
     CCoordinatorInit
       ("OpenEVSE (" +:+ py_str (dict_get (data e) CONF_NAME) +:+ ")")
       (timedelta_seconds 10);
     CAsyncRefresh; CExecutorJob "get_sensors"] ++
    own_calls (get_sensors e)).
  { rewrite calls_async_refresh, Hw4. subst c0. cbn [config].
    by rewrite <- !app_assoc. }
  destruct (sensors_outcome e) as [d|x].
  - rewrite exec_bind. cbn [last_update_success negb run ret fst].
    rewrite exec_bind, hass_data_setitem_outcome.
    skip_frames. subst w4. skip_frames.
    rewrite hass_data_setdefault_exec, lookup_insert_eq.
    set (w6 := exec (hass_data_setitem _ _ _) _).
    assert (Hw6 : calls w6 = calls (exec (async_refresh c0)
      (exec (OpenEVSEUpdateCoordinator 10 e)
         (exec (called (CAddUpdateListener (entry_id e)))
            (exec (logger INFO
               "Version %s is starting, if you have any issues please report them here: %s")
               (exec (hass_data_setdefault DOMAIN) w)))))).
    { subst w6. by rewrite calls_setitem, exec_ret. }
    rewrite Hw5 in Hw6. clear Hw5 Hw4.
    unfold async_add_executor_job.
    rewrite exec_bind, run_bind. cbn [run called fst].
    rewrite get_firmware_outcome.
    assert (Hw7 : calls (exec (called (CExecutorJob "get_firmware");;
                               get_firmware e) w6) =
                  calls w6 ++ [CExecutorJob "get_firmware"] ++
                  own_calls (get_firmware e)).
    { rewrite exec_bind. cbn [run called fst].
      rewrite oblivious_calls by apply oblivious_get_firmware.
      by rewrite calls_called, <- app_assoc. }
    destruct (firmware_outcome e) as [[model_info sw_version]|x].
    + rewrite exec_bind. cbn [run called fst].
      rewrite exec_bind. unfold dict_getitem.
      destruct (data e !! CONF_NAME) as [device_name|].
      * cbn [run ret fst]. rewrite exec_bind. cbn [run called fst].
        rewrite exec_bind. unfold create_forward_entry_setup_task.
        rewrite for_each_run, exec_ret, for_each_calls.
        rewrite calls_called, exec_ret, calls_called, Hw7, Hw6.
        by rewrite <- !app_assoc.
      * cbn [run raise fst]. rewrite exec_raise, calls_called, Hw7, Hw6.
        by rewrite <- !app_assoc.
    + rewrite Hw7, Hw6. by rewrite app_nil_r, <- !app_assoc.
  - rewrite exec_bind. cbn [last_update_success negb run raise fst].
    rewrite exec_raise, Hw5. by rewrite app_nil_r.
Qed.

Lemma forwarded_app cs cs' :
  forwarded (cs ++ cs') = forwarded cs ++ forwarded cs'.
Proof. apply omap_app. Qed.

Lemma listeners_added_app cs cs' :
  listeners_added (cs ++ cs') = listeners_added cs ++ listeners_added cs'.
Proof. apply omap_app. Qed.

Lemma devices_registered_app cs cs' :
  devices_registered (cs ++ cs') =
    devices_registered cs ++ devices_registered cs'.
Proof. apply omap_app. Qed.

Ltac frame_side ::=
  first
    [ solve [auto]
    | intros; cbn;
      rewrite ?constructed_app, ?coordinator_inits_app, ?forwarded_app,
        ?listeners_added_app, ?devices_registered_app; cbn;
      rewrite ?app_nil_r; reflexivity ].

(** The client functions call the client only. *)
Lemma own_calls_get_sensors config :
  forwarded (own_calls (get_sensors config)) = [] ∧
  listeners_added (own_calls (get_sensors config)) = [] ∧
  devices_registered (own_calls (get_sensors config)) = [].
Proof.
  unfold own_calls. split_and!.
  - assert (Hp : preserves (λ w, forwarded (calls w)) (get_sensors config))
      by frame.
    by rewrite (Hp init_world).
  - assert (Hp : preserves (λ w, listeners_added (calls w))
                   (get_sensors config)) by frame.
    by rewrite (Hp init_world).
  - assert (Hp : preserves (λ w, devices_registered (calls w))
                   (get_sensors config)) by frame.
    by rewrite (Hp init_world).
Qed.

Lemma own_calls_get_firmware config :
  forwarded (own_calls (get_firmware config)) = [] ∧
  listeners_added (own_calls (get_firmware config)) = [] ∧
  devices_registered (own_calls (get_firmware config)) = [].
Proof.
  unfold own_calls. split_and!.
  - assert (Hp : preserves (λ w, forwarded (calls w)) (get_firmware config))
      by frame.
    by rewrite (Hp init_world).
  - assert (Hp : preserves (λ w, listeners_added (calls w))
                   (get_firmware config)) by frame.
    by rewrite (Hp init_world).
  - assert (Hp : preserves (λ w, devices_registered (calls w))
                   (get_firmware config)) by frame.
    by rewrite (Hp init_world).
Qed.

Lemma forwarded_forward_setups eid platforms :
  forwarded (CForwardEntrySetup eid <$> platforms) =
    (λ platform, (eid, platform)) <$> platforms.
Proof.
  induction platforms as [|p l IH]; [done|].
  rewrite !fmap_cons. cbn [forwarded omap list_omap]. fold (forwarded (CForwardEntrySetup eid <$> l)).
  by rewrite IH.
Qed.

Lemma listeners_forward_setups eid platforms :
  listeners_added (CForwardEntrySetup eid <$> platforms) = [].
Proof. by induction platforms. Qed.

Lemma devices_forward_setups eid platforms :
  devices_registered (CForwardEntrySetup eid <$> platforms) = [].
Proof. by induction platforms. Qed.

Ltac obs_simpl :=
  unfold forwarded, listeners_added, devices_registered in *;
  repeat (rewrite ?omap_app; cbn [omap list_omap app]).

(** X1. The outcome of [async_setup_entry] is decided by its two client
    jobs and by the name of the entry: [ConfigEntryNotReady] when
    [get_sensors] raises, the exception of [get_firmware] when that
    raises, [KeyError] when the entry's data has no name, [True]
    otherwise. *)
Theorem async_setup_entry_outcome e w :
  run (async_setup_entry e) w =
    match run (get_sensors e) w with
    | Raise _ => Raise (exc ConfigEntryNotReady)
    | Return _ =>
        match run (get_firmware e) w with
        | Raise x => Raise x
        | Return _ =>
            match data e !! CONF_NAME with
            | None => Raise (Exn KeyError CONF_NAME)
            | Some _ => Return true
            end
        end
    end.
Proof.
  by rewrite async_setup_entry_run, get_sensors_outcome, get_firmware_outcome.
Qed.

(** X2. A device that cannot be reached does not stop the set-up: when
    [update()] raises and the entry has a name, [async_setup_entry]
    returns [True], stores a coordinator whose data is the empty dict,
    and registers the device with the model ["Wifi version "] and an
    empty software version. *)
Theorem setup_succeeds_when_unreachable e x device_name w :
  client_update (client_of e) = Raise x →
  data e !! CONF_NAME = Some device_name →
  let w' := exec (async_setup_entry e) w in
  run (async_setup_entry e) w = Return true ∧
  hass_data w' =
    <[DOMAIN := <[entry_id e := <[COORDINATOR := first_coordinator e ∅]> ∅]>
                  (domain_records w)]> (hass_data w) ∧
  devices_registered (calls w') =
    devices_registered (calls w) ++ [("Wifi version ", PStr "")].
Proof.
  intros Hu Hn w'. subst w'.
  assert (Hs : sensors_outcome e = Return ∅) by (unfold sensors_outcome; by rewrite Hu).
  assert (Hf : firmware_outcome e = Return (PStr "", PStr ""))
    by (unfold firmware_outcome; by rewrite Hu).
  split_and!.
  - by rewrite async_setup_entry_run, Hs, Hf, Hn.
  - by rewrite async_setup_entry_hass_data, Hs.
  - rewrite async_setup_entry_calls, Hs, Hf, Hn.
    destruct (own_calls_get_sensors e) as (_ & _ & Hds).
    destruct (own_calls_get_firmware e) as (_ & _ & Hdf).
    rewrite !devices_registered_app, Hds, Hdf, devices_forward_setups.
    cbn. by rewrite ?app_nil_r.
Qed.

(** X3. When [get_sensors] raises, [async_setup_entry] raises
    [ConfigEntryNotReady] right after the first poll: no record is
    stored for the entry, the firmware is not read, no device is
    registered and no platform is forwarded. *)
Theorem setup_not_ready e x w :
  run (get_sensors e) w = Raise x →
  let w' := exec (async_setup_entry e) w in
  run (async_setup_entry e) w = Raise (exc ConfigEntryNotReady) ∧
  hass_data w' = <[DOMAIN := domain_records w]> (hass_data w) ∧
  calls w' =
    calls w ++
    [CAddUpdateListener (entry_id e);
     CCoordinatorInit
       ("OpenEVSE (" +:+ py_str (dict_get (data e) CONF_NAME) +:+ ")")
       (timedelta_seconds 10);
     CAsyncRefresh; CExecutorJob "get_sensors"] ++
    own_calls (get_sensors e).
Proof.
  rewrite get_sensors_outcome. intros Hs w'. subst w'. split_and!.
  - by rewrite async_setup_entry_run, Hs.
  - by rewrite async_setup_entry_hass_data, Hs.
  - rewrite async_setup_entry_calls, Hs. by rewrite app_nil_r.
Qed.

(** X4. An entry whose data has no name: the coordinator is named
    ["OpenEVSE (None)"] and, when both client jobs return, its record is
    stored, and then [async_setup_entry] raises [KeyError], before any
    device is registered or platform forwarded. *)
Theorem setup_without_name e d fw w :
  data e !! CONF_NAME = None →
  run (get_sensors e) w = Return d →
  run (get_firmware e) w = Return fw →
  let w' := exec (async_setup_entry e) w in
  run (async_setup_entry e) w = Raise (Exn KeyError CONF_NAME) ∧
  name (first_coordinator e d) = "OpenEVSE (None)" ∧
  hass_data w' =
    <[DOMAIN := <[entry_id e := <[COORDINATOR := first_coordinator e d]> ∅]>
                  (domain_records w)]> (hass_data w) ∧
  devices_registered (calls w') = devices_registered (calls w) ∧
  forwarded (calls w') = forwarded (calls w).
Proof.
  rewrite get_sensors_outcome, get_firmware_outcome.
  intros Hn Hs Hf w'. subst w'.
  destruct (own_calls_get_sensors e) as (Hfs & _ & Hds).
  destruct (own_calls_get_firmware e) as (Hff & _ & Hdf).
  split_and!.
  - by rewrite async_setup_entry_run, Hs, Hf, Hn.
  - unfold first_coordinator, dict_get. cbn. by rewrite Hn.
  - by rewrite async_setup_entry_hass_data, Hs.
  - rewrite async_setup_entry_calls, Hs, Hf, Hn. destruct fw.
    rewrite !devices_registered_app, Hds, Hdf. cbn. by rewrite ?app_nil_r.
  - rewrite async_setup_entry_calls, Hs, Hf, Hn. destruct fw.
    rewrite !forwarded_app, Hfs, Hff. cbn. by rewrite ?app_nil_r.
Qed.

(** X5. A set-up that returns [True] changes [hass.data] at one place:
    under [DOMAIN] and the entry's id it stores the record of a
    coordinator that holds the entry, the ten-second interval and the
    dict of the first poll; the records of other entries and the other
    keys of [hass.data] are as they were. *)
Theorem setup_stores_first_poll e w :
  run (async_setup_entry e) w = Return true →
  let w' := exec (async_setup_entry e) w in
  ∃ d, run (get_sensors e) w = Return d ∧
       hass_data w' =
         <[DOMAIN := <[entry_id e := <[COORDINATOR := first_coordinator e d]> ∅]>
                       (domain_records w)]> (hass_data w) ∧
       domain_records w' !! entry_id e =
         Some (<[COORDINATOR := first_coordinator e d]> ∅) ∧
       (∀ eid, eid ≠ entry_id e →
          domain_records w' !! eid = domain_records w !! eid) ∧
       (∀ k, k ≠ DOMAIN → hass_data w' !! k = hass_data w !! k).
Proof.
  rewrite async_setup_entry_run. intros Hrun w'. subst w'.
  unfold domain_records at 2 3.
  rewrite async_setup_entry_hass_data, get_sensors_outcome.
  destruct (sensors_outcome e) as [d|x]; [|done].
  exists d. split_and!; [done | done | ..].
  - by rewrite lookup_insert_eq; cbn; rewrite lookup_insert_eq.
  - intros eid Hne. rewrite lookup_insert_eq. cbn.
    by rewrite lookup_insert_ne.
  - intros k Hne. by rewrite lookup_insert_ne.
Qed.

(** X6. [async_setup_entry] forwards the set-up of the platforms, each
    once and in the order of [PLATFORMS], exactly when it returns
    [True]; a set-up that raises has forwarded none. *)
Theorem setup_forwards_platforms e w :
  forwarded (calls (exec (async_setup_entry e) w)) =
    forwarded (calls w) ++
    match run (async_setup_entry e) w with
    | Return _ => (λ platform, (entry_id e, platform)) <$> PLATFORMS
    | Raise _ => []
    end.
Proof.
  rewrite async_setup_entry_calls, async_setup_entry_run.
  destruct (own_calls_get_sensors e) as (Hfs & _ & _).
  destruct (own_calls_get_firmware e) as (Hff & _ & _).
  pose proof (forwarded_forward_setups (entry_id e) PLATFORMS) as Hp.
  destruct (sensors_outcome e) as [d|x];
    [destruct (firmware_outcome e) as [[model_info sw_version]|x];
     [destruct (data e !! CONF_NAME) as [device_name|] |] |];
    obs_simpl; rewrite ?Hfs, ?Hff, ?Hp, ?app_nil_r; reflexivity.
Qed.

(** X7. Every call of [async_setup_entry] adds the update listener to
    the entry, once, whether the set-up then returns or raises. *)
Theorem setup_adds_listener_once e w :
  listeners_added (calls (exec (async_setup_entry e) w)) =
    listeners_added (calls w) ++ [entry_id e].
Proof.
  rewrite async_setup_entry_calls.
  destruct (own_calls_get_sensors e) as (_ & Hls & _).
  destruct (own_calls_get_firmware e) as (_ & Hlf & _).
  pose proof (listeners_forward_setups (entry_id e) PLATFORMS) as Hp.
  destruct (sensors_outcome e) as [d|x];
    [destruct (firmware_outcome e) as [[model_info sw_version]|x];
     [destruct (data e !! CONF_NAME) as [device_name|] |] |];
    obs_simpl; rewrite ?Hls, ?Hlf, ?Hp, ?app_nil_r; reflexivity.
Qed.

(** X8. [async_setup_entry] registers the device exactly when it returns
    [True], under the model ["Wifi version "] followed by the wifi
    firmware and with the OpenEVSE firmware as software version, both as
    [get_firmware] returned them. *)
Theorem setup_registers_device e w :
  devices_registered (calls (exec (async_setup_entry e) w)) =
    devices_registered (calls w) ++
    match run (async_setup_entry e) w, run (get_firmware e) w with
    | Return _, Return (wifi_firmware, openevse_firmware) =>
        [("Wifi version " +:+ py_str wifi_firmware, openevse_firmware)]
    | _, _ => []
    end.
Proof.
  rewrite async_setup_entry_calls, async_setup_entry_run,
    get_firmware_outcome.
  destruct (own_calls_get_sensors e) as (_ & _ & Hds).
  destruct (own_calls_get_firmware e) as (_ & _ & Hdf).
  pose proof (devices_forward_setups (entry_id e) PLATFORMS) as Hp.
  destruct (sensors_outcome e) as [d|x];
    [destruct (firmware_outcome e) as [[model_info sw_version]|x];
     [destruct (data e !! CONF_NAME) as [device_name|] |] |];
    obs_simpl; rewrite ?Hds, ?Hdf, ?Hp, ?app_nil_r; reflexivity.
Qed.

(** *** Unloading: every outcome *)

Lemma gather_unloads_calls e platforms w :
  calls (exec (gather (map (async_forward_entry_unload e) platforms)) w) =
    calls w ++ (CForwardEntryUnload (entry_id e) <$> platforms).
Proof.
  rewrite gather_exec. revert w.
  induction platforms as [|p platforms IH]; intros w.
  - cbn. by rewrite app_nil_r.
  - specialize (IH (add_call (CForwardEntryUnload (entry_id e) p) w)).
    cbn in *.
    destruct (run_all _ _) as [rs w2]. cbn in *. rewrite IH.
    by rewrite <- app_assoc.
Qed.

Lemma hass_data_pop_outcome domain eid w :
  run (hass_data_pop domain eid) w =
    match hass_data w !! domain with
    | None => Raise (Exn KeyError domain)
    | Some d =>
        match d !! eid with
        | None => Raise (Exn KeyError eid)
        | Some record => Return record
        end
    end.
Proof.
  unfold run, hass_data_pop. destruct (_ !! _) as [d|]; [|done].
  by destruct (_ !! _).
Qed.

Lemma hass_data_pop_exec domain eid w :
  hass_data (exec (hass_data_pop domain eid) w) =
    match hass_data w !! domain with
    | None => hass_data w
    | Some d =>
        match d !! eid with
        | None => hass_data w
        | Some _ => <[domain := delete eid d]> (hass_data w)
        end
    end.
Proof.
  unfold exec, hass_data_pop. destruct (_ !! _) as [d|]; [|done].
  by destruct (_ !! _).
Qed.

Lemma calls_pop domain eid w :
  calls (exec (hass_data_pop domain eid) w) = calls w.
Proof.
  assert (Hp : preserves calls (hass_data_pop domain eid)) by frame.
  apply Hp.
Qed.

Lemma async_unload_entry_run e w :
  run (async_unload_entry e) w =
    match gathered (unloads e) with
    | Raise x => Raise x
    | Return results =>
        if forallb id results then
          match run (hass_data_pop DOMAIN (entry_id e)) w with
          | Return _ => Return true
          | Raise x => Raise x
          end
        else Return false
    end.
Proof.
  unfold async_unload_entry.
  rewrite run_bind. cbn [run logger fst].
  rewrite run_bind, gather_unloads_run. fold (unloads e).
  destruct (gathered (unloads e)) as [results|x]; [|done].
  rewrite run_bind. destruct (forallb id results); [|done].
  rewrite run_bind. cbn [run logger fst].
  rewrite run_bind, !hass_data_pop_outcome. skip_frames.
  destruct (hass_data w !! DOMAIN) as [d|]; [|done].
  by destruct (d !! entry_id e).
Qed.

Lemma async_unload_entry_hass_data e w :
  hass_data (exec (async_unload_entry e) w) =
    match gathered (unloads e) with
    | Raise x => hass_data w
    | Return results =>
        if forallb id results
        then hass_data (exec (hass_data_pop DOMAIN (entry_id e)) w)
        else hass_data w
    end.
Proof.
  unfold async_unload_entry.
  rewrite exec_bind. cbn [run logger fst].
  rewrite exec_bind, gather_unloads_run. fold (unloads e).
  destruct (gathered (unloads e)) as [results|x]; [|by skip_frames].
  rewrite exec_bind. destruct (forallb id results).
  - rewrite run_bind. cbn [run logger fst].
    rewrite run_bind, exec_bind. cbn [run logger fst].
    rewrite exec_bind, hass_data_pop_outcome. skip_frames.
    rewrite (hass_data_pop_exec _ _ w).
    destruct (hass_data w !! DOMAIN) as [d|] eqn:Hd.
    + destruct (d !! entry_id e) eqn:Hr; cbn [run ret fst];
        rewrite ?exec_ret, hass_data_pop_exec; skip_frames;
        by rewrite Hd, Hr.
    + rewrite hass_data_pop_exec. skip_frames. by rewrite Hd.
  - cbn [run ret fst]. rewrite !exec_ret. by skip_frames.
Qed.

(** X9. Whatever the platforms answer, [async_unload_entry] asks each
    platform of [PLATFORMS] to unload, once and in order, and makes no
    other call: a platform that fails does not keep the later ones from
    being asked. *)
Theorem unload_asks_every_platform e w :
  calls (exec (async_unload_entry e) w) =
    calls w ++ (CForwardEntryUnload (entry_id e) <$> PLATFORMS).
Proof.
  unfold async_unload_entry.
  rewrite exec_bind. cbn [run logger fst].
  rewrite exec_bind.
  assert (Hc : calls (exec (gather (map (λ platform,
                  async_forward_entry_unload e platform) PLATFORMS))
                 (exec (logger DEBUG
                   "Attempting to unload entities from the %s integration") w))
               = calls w ++ (CForwardEntryUnload (entry_id e) <$> PLATFORMS)).
  { by rewrite gather_unloads_calls, calls_logger. }
  destruct (run (gather _) _) as [results|x]; [|done].
  rewrite exec_bind.
  destruct (forallb id results).
  - rewrite run_bind. cbn [run logger fst].
    rewrite run_bind, exec_bind. cbn [run logger fst]. rewrite exec_bind.
    destruct (run (hass_data_pop _ _) _);
      cbn [run ret fst]; rewrite ?exec_ret, calls_pop, calls_logger; done.
  - cbn [run ret fst]. by rewrite !exec_ret.
Qed.

Lemma gathered_answers (rs : list (result bool)) :
  Forall unload_answers rs → ∃ l, gathered rs = Return l.
Proof.
  intros Hall. exists (returned rs). apply gathered_Return.
  induction Hall as [|r rs [b ->] _ IH]; [done|]. cbn. by f_equal.
Qed.

(** X10. When the unload of a platform raises, [async_unload_entry]
    raises too, and what it raises is the exception of a platform of
    [PLATFORMS] whose unload raises: the one raised first in time;
    [hass.data] is as it was. *)
Theorem unload_platform_raises e platform x w :
  platform ∈ PLATFORMS →
  forward_entry_unload (entry_id e) platform = Raise x →
  (∃ p y, p ∈ PLATFORMS ∧
          forward_entry_unload (entry_id e) p = Raise y ∧
          run (async_unload_entry e) w = Raise y) ∧
  hass_data (exec (async_unload_entry e) w) = hass_data w.
Proof.
  intros Hin Hx.
  assert (Hr : Raise x ∈ unloads e).
  { unfold unloads. rewrite <- Hx. apply list_elem_of_In, in_map.
    by apply list_elem_of_In. }
  destruct (gathered_raises _ _ Hr) as [y Hy].
  rewrite async_unload_entry_run, async_unload_entry_hass_data, Hy.
  split; [|done].
  apply gathered_Raise in Hy. unfold unloads in Hy.
  apply list_elem_of_In, in_map_iff in Hy as (p & Hp & Hpin).
  exists p, y. by rewrite list_elem_of_In.
Qed.

(** X11. When every platform answers and one of them answers [False],
    [async_unload_entry] returns [False], without raising, and
    [hass.data] is as it was. *)
Theorem unload_refused_returns_false e w :
  Forall unload_answers (unloads e) →
  ¬ Forall unload_succeeds (unloads e) →
  run (async_unload_entry e) w = Return false ∧
  hass_data (exec (async_unload_entry e) w) = hass_data w.
Proof.
  intros [l Hl]%gathered_answers Hno.
  rewrite async_unload_entry_run, async_unload_entry_hass_data, Hl.
  destruct (forallb id l) eqn:Hall; [|done].
  destruct Hno. apply gathered_succeeds. eauto.
Qed.

(** X12. When every platform unloads with success but [hass.data] holds
    no record for the entry, [async_unload_entry] raises [KeyError]
    instead of returning [True], and [hass.data] is as it was. *)
Theorem unload_without_record e w :
  Forall unload_succeeds (unloads e) →
  domain_records w !! entry_id e = None →
  (∃ k, run (async_unload_entry e) w = Raise (Exn KeyError k)) ∧
  hass_data (exec (async_unload_entry e) w) = hass_data w.
Proof.
  intros (l & Hl & Hall)%gathered_succeeds Hnone.
  rewrite async_unload_entry_run, async_unload_entry_hass_data, Hl, Hall.
  rewrite hass_data_pop_outcome, hass_data_pop_exec.
  unfold domain_records in Hnone.
  destruct (hass_data w !! DOMAIN) as [d|]; [|by eauto].
  cbn in Hnone. rewrite Hnone. by eauto.
Qed.

(** X13. Set-up, then unload: after an [async_setup_entry] that returned
    [True], an [async_unload_entry] whose platforms all unload returns
    [True] and leaves [hass.data] without the entry's record; if the
    entry had no record before the set-up, [hass.data[DOMAIN]] holds
    again the records it held before. *)
Theorem setup_then_unload e w :
  run (async_setup_entry e) w = Return true →
  Forall unload_succeeds (unloads e) →
  let w1 := exec (async_setup_entry e) w in
  let w2 := exec (async_unload_entry e) w1 in
  run (async_unload_entry e) w1 = Return true ∧
  hass_data w2 =
    <[DOMAIN := delete (entry_id e) (domain_records w)]> (hass_data w) ∧
  (domain_records w !! entry_id e = None →
   hass_data w2 = <[DOMAIN := domain_records w]> (hass_data w)).
Proof.
  intros Hrun (l & Hl & Hall)%gathered_succeeds w1 w2. subst w1 w2.
  rewrite async_setup_entry_run in Hrun.
  rewrite async_unload_entry_run, async_unload_entry_hass_data, Hl, Hall.
  rewrite hass_data_pop_outcome, hass_data_pop_exec,
    async_setup_entry_hass_data.
  destruct (sensors_outcome e) as [d|x]; [|done].
  rewrite lookup_insert_eq, lookup_insert_eq.
  rewrite insert_insert_eq, delete_insert_eq.
  split_and!; [done..|].
  intros Hnone. by rewrite delete_id.
Qed.

(** *** The update listener, called again *)

(** X14. The entry that [update_listener] returns is settled: called on
    it again, in any state, the listener returns it as it is and calls
    the host neither to update nor to reload. *)
Theorem update_listener_settles e e' w w2 :
  run (update_listener e) w = Return e' →
  run (update_listener e') w2 = Return e' ∧
  calls (exec (update_listener e') w2) = calls w2 ∧
  hass_data (exec (update_listener e') w2) = hass_data w2.
Proof.
  intros Hrun.
  assert (Heq : dict_eqb (data e') (options e') = true).
  { revert Hrun.
    unfold run, update_listener, bind, logger, async_update_entry,
      async_reload, called, lift, ret.
    destruct (dict_eqb (data e) (options e)) eqn:Heq; cbn.
    - by intros [= <-].
    - destruct (reload (entry_id e)) as [[]|x]; cbn; [|done].
      intros [= <-]. apply dict_eqb_refl. }
  unfold run, exec, update_listener, bind, logger, ret.
  by rewrite Heq.
Qed.

(** *** What a poll asks of the client *)

Lemma get_sensors_body_calls charger sensor data w :
  calls (exec (get_sensors_body charger sensor data) w) =
    calls w ++ match sensor_attr sensor with
               | Some attr => [CGetattr attr]
               | None => []
               end.
Proof.
  unfold exec, get_sensors_body, try_except, try_return, bind,
    sensor_types_getitem, sensor_attr, getattr, called, lift, logger, ret, raise.
  destruct (sensor_types_lookup sensor) as [description|]; cbn -[matches].
  - destruct (decide (sensor = "current_power")); cbn -[matches].
    + by rewrite app_nil_r.
    + destruct (client_getattr _ _) as [v|x]; cbn -[matches]; [done|].
      by destruct (matches x _).
  - destruct (decide (sensor = "current_power")); cbn; by rewrite app_nil_r.
Qed.

Lemma reads_ok_cons charger sensor sensors :
  reads_ok charger (sensor :: sensors) →
  reads_ok charger sensors ∧
  ∀ x, sensor_read charger sensor = Raise x → caught x = true.
Proof.
  intros Hok. split.
  - intros s x Hin. apply Hok. by right.
  - intros x. apply Hok. by left.
Qed.

Lemma get_sensors_loop_calls charger sensors data w :
  reads_ok charger sensors →
  calls (exec (get_sensors_loop charger sensors data) w) =
    calls w ++ (CGetattr <$> omap sensor_attr sensors).
Proof.
  revert data w. induction sensors as [|s sensors IH]; intros data w Hok.
  - cbn. by rewrite app_nil_r.
  - apply reads_ok_cons in Hok as [Hok Hs].
    cbn [get_sensors_loop]. rewrite exec_bind, get_sensors_body_run.
    assert (Hgo : ∀ d,
      calls (exec (get_sensors_loop charger sensors d)
               (exec (get_sensors_body charger s data) w)) =
      calls w ++ (CGetattr <$> omap sensor_attr (s :: sensors))).
    { intros d. rewrite IH, get_sensors_body_calls by done.
      cbn [omap list_omap]. destruct (sensor_attr s); cbn;
        by rewrite <- app_assoc. }
    destruct (sensor_read charger s) as [v|x]; [apply Hgo|].
    rewrite (Hs x eq_refl). apply Hgo.
Qed.

Lemma get_sensors_loop_stops charger before sensor after x data w :
  reads_ok charger before →
  sensor_read charger sensor = Raise x → caught x = false →
  run (get_sensors_loop charger (before ++ sensor :: after) data) w = Raise x ∧
  calls (exec (get_sensors_loop charger (before ++ sensor :: after) data) w) =
    calls w ++ (CGetattr <$> omap sensor_attr (before ++ [sensor])).
Proof.
  intros Hok Hx Hc. revert data w.
  induction before as [|s before IH]; intros data w.
  - cbn [app get_sensors_loop].
    rewrite run_bind, exec_bind, get_sensors_body_run, Hx, Hc.
    split; [done|]. rewrite get_sensors_body_calls.
    cbn [omap list_omap]. destruct (sensor_attr sensor); cbn;
      by rewrite ?app_nil_r.
  - apply reads_ok_cons in Hok as [Hok Hs]. specialize (IH Hok).
    cbn [app get_sensors_loop].
    rewrite run_bind, exec_bind, get_sensors_body_run.
    assert (Hgo : ∀ d,
      calls (exec (get_sensors_loop charger (before ++ sensor :: after) d)
               (exec (get_sensors_body charger s data) w)) =
      calls w ++ (CGetattr <$> omap sensor_attr ((s :: before) ++ [sensor]))).
    { intros d. rewrite (proj2 (IH _ _)), get_sensors_body_calls.
      cbn [app omap list_omap]. destruct (sensor_attr s); cbn;
        by rewrite <- app_assoc. }
    destruct (sensor_read charger s) as [v|y].
    + split; [apply IH | apply Hgo].
    + rewrite (Hs y eq_refl). split; [apply IH | apply Hgo].
Qed.

Lemma get_sensors_exec_updated config charger w :
  client_update (client_of config) = Return charger →
  exec (get_sensors config) w =
    exec (data <- get_sensors_loop charger SENSOR_TYPES.*1 ∅;;
          logger DEBUG "DEBUG: %s";; ret data)
      (add_call CUpdate
         (add_call (COpenEVSE (dict_get (data config) CONF_HOST)
                              (dict_get (data config) CONF_USERNAME)
                              (dict_get (data config) CONF_PASSWORD)) w)).
Proof.
  intros Hu. unfold client_of in Hu.
  unfold get_sensors. rewrite exec_bind, run_OpenEVSE.
  rewrite exec_try_return, run_update, Hu. reflexivity.
Qed.

(** X15. A poll that goes well asks the client, in this order: to build
    the object from the entry's credentials, to update, and for one
    attribute per sensor of [SENSOR_TYPES], the one its key names; for
    ["current_power"] it asks nothing. *)
Theorem get_sensors_reads config charger w :
  client_update (client_of config) = Return charger →
  reads_ok charger SENSOR_TYPES.*1 →
  calls (exec (get_sensors config) w) =
    calls w ++
    [COpenEVSE (dict_get (data config) CONF_HOST)
               (dict_get (data config) CONF_USERNAME)
               (dict_get (data config) CONF_PASSWORD);
     CUpdate] ++
    (CGetattr <$> omap sensor_attr SENSOR_TYPES.*1).
Proof.
  intros Hu Hok. rewrite (get_sensors_exec_updated _ _ _ Hu).
  rewrite exec_bind, get_sensors_loop_run.
  apply first_uncaught_None in Hok as Hnone. rewrite Hnone.
  rewrite exec_bind. cbn [run logger fst]. rewrite exec_ret, calls_logger.
  rewrite get_sensors_loop_calls by done. cbn. by rewrite <- !app_assoc.
Qed.

(** X16. The first sensor, in the order of [SENSOR_TYPES], whose reading
    raises an exception that the loop does not catch ends the poll:
    [get_sensors] raises that exception, the sensors after it are not
    read, and [_async_update_data] raises [UpdateFailed] from it. *)
Theorem get_sensors_first_uncaught config charger before sensor after x w :
  client_update (client_of config) = Return charger →
  SENSOR_TYPES.*1 = before ++ sensor :: after →
  reads_ok charger before →
  sensor_read charger sensor = Raise x →
  caught x = false →
  run (get_sensors config) w = Raise x ∧
  calls (exec (get_sensors config) w) =
    calls w ++
    [COpenEVSE (dict_get (data config) CONF_HOST)
               (dict_get (data config) CONF_USERNAME)
               (dict_get (data config) CONF_PASSWORD);
     CUpdate] ++
    (CGetattr <$> omap sensor_attr (before ++ [sensor])) ∧
  ∀ self, Eff.config self = config →
    run (_async_update_data self) w = Raise (exc_from UpdateFailed x).
Proof.
  intros Hu Hsplit Hok Hx Hc.
  assert (Hrun : ∀ w, run (get_sensors config) w = Raise x).
  { intros w0. rewrite (get_sensors_run _ _ _ Hu), <- get_sensors_loop_run
      with (data := ∅) (w := w0).
    rewrite Hsplit. by apply get_sensors_loop_stops. }
  split_and!.
  - apply Hrun.
  - rewrite (get_sensors_exec_updated _ _ _ Hu), Hsplit.
    rewrite exec_bind.
    edestruct (get_sensors_loop_stops charger before sensor after x ∅)
      as [Hr Hcalls]; [done..|].
    rewrite Hr, Hcalls. cbn. by rewrite <- !app_assoc.
  - intros self <-. rewrite async_update_data_run.
    by rewrite <- (get_sensors_outcome _ w), Hrun.
Qed.

(** X17. [get_firmware] catches a failing [update()] only: once the
    update has succeeded, an exception raised by reading
    [wifi_firmware] or [openevse_firmware] leaves the function, and after
    a failing [wifi_firmware] the other attribute is not read. *)
Theorem get_firmware_after_update config charger w :
  client_update (client_of config) = Return charger →
  run (get_firmware config) w =
    match client_getattr charger "wifi_firmware" with
    | Raise x => Raise x
    | Return wifi_firmware =>
        match client_getattr charger "openevse_firmware" with
        | Raise x => Raise x
        | Return openevse_firmware =>
            Return (wifi_firmware, openevse_firmware)
        end
    end ∧
  calls (exec (get_firmware config) w) =
    calls w ++
    [COpenEVSE (dict_get (data config) CONF_HOST)
               (dict_get (data config) CONF_USERNAME)
               (dict_get (data config) CONF_PASSWORD);
     CUpdate; CGetattr "wifi_firmware"] ++
    match client_getattr charger "wifi_firmware" with
    | Raise _ => []
    | Return _ => [CGetattr "openevse_firmware"]
    end.
Proof.
  intros Hu. split.
  - rewrite get_firmware_outcome. unfold firmware_outcome. by rewrite Hu.
  - unfold client_of in Hu.
    unfold exec, get_firmware, try_return, bind, OpenEVSE, update, getattr,
      called, lift, logger, ret; cbn -[matches].
    rewrite Hu. cbn.
    destruct (client_getattr charger "wifi_firmware") as [a|x]; cbn;
      [|by rewrite <- !app_assoc].
    destruct (client_getattr charger "openevse_firmware"); cbn;
      by rewrite <- !app_assoc.
Qed.

(** X18. When [update()] raises, [get_sensors] and [get_firmware] read no
    attribute of the client, and each logs the failure with one record of
    level [ERROR]. *)
Theorem failed_update_is_logged config x w :
  client_update (client_of config) = Raise x →
  calls (exec (get_sensors config) w) =
    calls w ++
    [COpenEVSE (dict_get (data config) CONF_HOST)
               (dict_get (data config) CONF_USERNAME)
               (dict_get (data config) CONF_PASSWORD);
     CUpdate] ∧
  log (exec (get_sensors config) w) =
    log w ++ [(ERROR, "Error updating sesnors: %s")] ∧
  calls (exec (get_firmware config) w) =
    calls w ++
    [COpenEVSE (dict_get (data config) CONF_HOST)
               (dict_get (data config) CONF_USERNAME)
               (dict_get (data config) CONF_PASSWORD);
     CUpdate] ∧
  log (exec (get_firmware config) w) =
    log w ++ [(DEBUG, "Connecting to %s, with username %s");
              (ERROR, "Problem retreiving firmware data: %s")].
Proof.
  intros Hu. unfold client_of in Hu.
  unfold exec, get_sensors, get_firmware, try_return, bind, OpenEVSE, update,
    called, lift, logger, ret; cbn -[matches].
  rewrite Hu. cbn -[matches]. rewrite matches_Exception. cbn.
  by rewrite <- !app_assoc.
Qed.

End Properties.

(** ** The properties on the simulated installation *)

Import Sim.


Lemma update_failure_is_caught_witness :
  client_update (client_of (entry "e1" "192.168.1.99")) =
    Raise (Exn ConnectionError "Cannot connect to host") ∧
  run (get_sensors (entry "e1" "192.168.1.99")) init_world = Return ∅ ∧
  run (get_firmware (entry "e1" "192.168.1.99")) init_world =
    Return (PStr "", PStr "").
Proof.
  split; [reflexivity|].
  apply (update_failure_is_caught (entry "e1" "192.168.1.99")
           (Exn ConnectionError "Cannot connect to host")).
  reflexivity.
Defined.

(** The device at 192.168.1.32 does not report the current: reading
    [charging_current] raises [KeyError], which the loop catches. *)
Lemma get_sensors_skips_caught_witness :
  client_update (client_of (entry "e1" "192.168.1.32")) =
    Return (charger_32) ∧
  reads_ok charger_32 SENSOR_TYPES.*1 ∧
  ∃ data, run (get_sensors (entry "e1" "192.168.1.32")) init_world =
            Return data ∧
    ∀ sensor, data !! sensor =
      if decide (sensor ∈ SENSOR_TYPES.*1) then
        match sensor_read charger_32 sensor with
        | Return v => Some v
        | Raise _ => None
        end
      else None.
Proof.
  assert (Hok : reads_ok charger_32 SENSOR_TYPES.*1).
  { apply first_uncaught_None. vm_compute. reflexivity. }
  split; [reflexivity|]. split; [exact Hok|].
  apply (get_sensors_skips_caught (entry "e1" "192.168.1.32") charger_32);
    [reflexivity | exact Hok].
Defined.

(** The device at 192.168.1.31 has no temperature sensor: [update()]
    succeeds, reading [ambient_temperature] raises [TypeError], and
    [get_sensors] raises it. *)
Lemma get_sensors_raises_after_update :
  (∃ charger,
     client_update (client_of (entry "e1" "192.168.1.31")) = Return charger) ∧
  run (get_sensors (entry "e1" "192.168.1.31")) init_world =
    Raise (Exn TypeError "unsupported operand type(s) for /").
Proof. split; [eexists|]; vm_compute; reflexivity. Qed.

(** The sensor [status] on the device at 192.168.1.30; and the sensor
    [current_power] on a client that has no attribute of that name, where
    the dict of [get_sensors] still holds [None] under the name. *)
Lemma get_sensors_value_witness :
  (client_update (client_of (entry "e1" "192.168.1.30")) = Return charger_30 ∧
   sensor_types_lookup "status" = Some {| key := "status" |} ∧
   (reads_ok charger_30 SENSOR_TYPES.*1 →
    ∃ data, run (get_sensors (entry "e1" "192.168.1.30")) init_world =
              Return data) ∧
   (∀ data, run (get_sensors (entry "e1" "192.168.1.30")) init_world =
              Return data →
      ("status" = "current_power" → data !! "status" = Some PNone) ∧
      ("status" ≠ "current_power" →
       ∀ v, client_getattr charger_30 (key {| key := "status" |}) = Return v →
            data !! "status" = Some v))) ∧
  (@client_update no_power_lib
     (@client_of no_power_lib (entry "e1" "192.168.1.30")) =
     Return (updated "192.168.1.30") ∧
   sensor_types_lookup "current_power" = Some {| key := "current_power" |} ∧
   @client_getattr no_power_lib (updated "192.168.1.30") "current_power" =
     Raise (Exn AttributeError "current_power") ∧
   (@reads_ok const no_power_lib (updated "192.168.1.30") SENSOR_TYPES.*1 →
    ∃ data, run (@get_sensors const no_power_lib
                   (entry "e1" "192.168.1.30")) init_world = Return data) ∧
   (∀ data, run (@get_sensors const no_power_lib
                   (entry "e1" "192.168.1.30")) init_world = Return data →
      ("current_power" = "current_power" →
       data !! "current_power" = Some PNone) ∧
      ("current_power" ≠ "current_power" →
       ∀ v, @client_getattr no_power_lib (updated "192.168.1.30")
              (key {| key := "current_power" |}) = Return v →
            data !! "current_power" = Some v))).
Proof.
  split.
  - split; [reflexivity|]. split; [reflexivity|].
    apply (get_sensors_value (entry "e1" "192.168.1.30") charger_30
             "status" {| key := "status" |});
      reflexivity.
  - split; [reflexivity|]. split; [reflexivity|]. split; [reflexivity|].
    apply (@get_sensors_value const no_power_lib
             (entry "e1" "192.168.1.30") (updated "192.168.1.30")
             "current_power" {| key := "current_power" |});
      reflexivity.
Defined.

(** The device at 192.168.1.30 reports a power of 1200, the attribute
    that the key of the sensor [current_power] names; the dict of
    [get_sensors] holds [None] under that name. *)
Lemma current_power_is_not_read :
  client_update (client_of (entry "e1" "192.168.1.30")) = Return charger_30 ∧
  sensor_types_lookup "current_power" = Some {| key := "current_power" |} ∧
  client_getattr charger_30 "current_power" = Return (PInt 1200) ∧
  ∃ data, run (get_sensors (entry "e1" "192.168.1.30")) init_world =
            Return data ∧
          data !! "current_power" = Some PNone ∧
          data !! "current_power" ≠ Some (PInt 1200).
Proof.
  split; [reflexivity|]. split; [reflexivity|]. split; [reflexivity|].
  eexists. split; [vm_compute; reflexivity|].
  split; [vm_compute; reflexivity | vm_compute; discriminate].
Qed.

Lemma unload_is_atomic_witness :
  hass_data loaded_world !! DOMAIN = Some loaded_domain ∧
  loaded_domain !! entry_id (entry "e1" "192.168.1.30") = Some loaded_record ∧
  let e := entry "e1" "192.168.1.30" in
  let r := run (async_unload_entry e) loaded_world in
  let w' := exec (async_unload_entry e) loaded_world in
  (r = Return true ↔ Forall unload_succeeds (unloads e)) ∧
  (Forall unload_succeeds (unloads e) →
     hass_data w' =
       <[DOMAIN := delete (entry_id e) loaded_domain]> (hass_data loaded_world)) ∧
  (¬ Forall unload_succeeds (unloads e) →
     hass_data w' = hass_data loaded_world).
Proof.
  split; [reflexivity|]. split; [reflexivity|].
  apply (unload_is_atomic (entry "e1" "192.168.1.30") loaded_world
           loaded_domain loaded_record);
    reflexivity.
Defined.

(** *** Runs of the module on the simulated installation *)

Example unload_refused :
  run (async_unload_entry (entry "busy" "192.168.1.30")) loaded_world =
    Return false ∧
  hass_data (exec (async_unload_entry (entry "busy" "192.168.1.30"))
               loaded_world) = hass_data loaded_world.
Proof. split; vm_compute; reflexivity. Qed.

Example listener_reloads_edited_entry :
  calls (exec (update_listener edited_entry) loaded_world) =
    [CUpdateEntry "e1" (options edited_entry); CReload "e1"] ∧
  (data <$> run_value (update_listener edited_entry) loaded_world) =
    Some (options edited_entry).
Proof. split; vm_compute; reflexivity. Qed.

Example listener_leaves_synced_entry :
  run (update_listener (entry "e1" "192.168.1.30")) loaded_world =
    Return (entry "e1" "192.168.1.30") ∧
  calls (exec (update_listener (entry "e1" "192.168.1.30")) loaded_world) = [].
Proof. split; vm_compute; reflexivity. Qed.

Example setup_polls_every_ten_seconds :
  coordinator_inits
    (calls (exec (async_setup_entry (entry "e1" "192.168.1.30")) init_world)) =
    [("OpenEVSE (Garage)",
      {| td_days := 0; td_seconds := 10; td_microseconds := 0 |})].
Proof. vm_compute. reflexivity. Qed.

Example rejected_value :
  run (send_command sim_handler "$SC 900") init_world =
    Raise (exc InvalidValue) ∧
  run (send_command sim_handler "$XX") init_world =
    Raise (exc CommandFailed).
Proof. split; reflexivity. Qed.

(** *** The further properties on the simulated installation *)

Lemma setup_succeeds_when_unreachable_witness :
  client_update (client_of (entry "e1" "192.168.1.99")) =
    Raise (Exn ConnectionError "Cannot connect to host") ∧
  data (entry "e1" "192.168.1.99") !! CONF_NAME = Some (PStr "Garage") ∧
  let e := entry "e1" "192.168.1.99" in
  let w' := exec (async_setup_entry e) init_world in
  run (async_setup_entry e) init_world = Return true ∧
  hass_data w' =
    <[DOMAIN := <[entry_id e := <[COORDINATOR := first_coordinator e ∅]> ∅]>
                  (domain_records init_world)]> (hass_data init_world) ∧
  devices_registered (calls w') =
    devices_registered (calls init_world) ++ [("Wifi version ", PStr "")].
Proof.
  split; [reflexivity|]. split; [reflexivity|].
  apply (setup_succeeds_when_unreachable (entry "e1" "192.168.1.99")
           (Exn ConnectionError "Cannot connect to host") (PStr "Garage"));
    reflexivity.
Defined.

Lemma setup_not_ready_witness :
  run (get_sensors (entry "e1" "192.168.1.31")) init_world =
    Raise (Exn TypeError "unsupported operand type(s) for /") ∧
  let e := entry "e1" "192.168.1.31" in
  let w' := exec (async_setup_entry e) init_world in
  run (async_setup_entry e) init_world = Raise (exc ConfigEntryNotReady) ∧
  hass_data w' =
    <[DOMAIN := domain_records init_world]> (hass_data init_world) ∧
  calls w' =
    calls init_world ++
    [CAddUpdateListener (entry_id e);
     CCoordinatorInit
       ("OpenEVSE (" +:+ py_str (dict_get (data e) CONF_NAME) +:+ ")")
       (timedelta_seconds 10);
     CAsyncRefresh; CExecutorJob "get_sensors"] ++
    own_calls (get_sensors e).
Proof.
  split; [vm_compute; reflexivity|].
  apply (setup_not_ready (entry "e1" "192.168.1.31")
           (Exn TypeError "unsupported operand type(s) for /")).
  vm_compute. reflexivity.
Defined.

Lemma setup_without_name_witness :
  data nameless_entry !! CONF_NAME = None ∧
  run (get_sensors nameless_entry) init_world =
    Return (readings charger_30 SENSOR_TYPES.*1 ∅) ∧
  run (get_firmware nameless_entry) init_world =
    Return (PStr "4.1.2", PStr "7.1.3") ∧
  let e := nameless_entry in
  let d := readings charger_30 SENSOR_TYPES.*1 ∅ in
  let w' := exec (async_setup_entry e) init_world in
  run (async_setup_entry e) init_world = Raise (Exn KeyError CONF_NAME) ∧
  name (first_coordinator e d) = "OpenEVSE (None)" ∧
  hass_data w' =
    <[DOMAIN := <[entry_id e := <[COORDINATOR := first_coordinator e d]> ∅]>
                  (domain_records init_world)]> (hass_data init_world) ∧
  devices_registered (calls w') = devices_registered (calls init_world) ∧
  forwarded (calls w') = forwarded (calls init_world).
Proof.
  split; [reflexivity|].
  split; [vm_compute; reflexivity|]. split; [vm_compute; reflexivity|].
  apply (setup_without_name nameless_entry
           (readings charger_30 SENSOR_TYPES.*1 ∅)
           (PStr "4.1.2", PStr "7.1.3"));
    [reflexivity | vm_compute; reflexivity | vm_compute; reflexivity].
Defined.

Lemma setup_stores_first_poll_witness :
  run (async_setup_entry (entry "e1" "192.168.1.30")) init_world =
    Return true ∧
  let e := entry "e1" "192.168.1.30" in
  let w' := exec (async_setup_entry e) init_world in
  ∃ d, run (get_sensors e) init_world = Return d ∧
       hass_data w' =
         <[DOMAIN := <[entry_id e := <[COORDINATOR := first_coordinator e d]> ∅]>
                       (domain_records init_world)]> (hass_data init_world) ∧
       domain_records w' !! entry_id e =
         Some (<[COORDINATOR := first_coordinator e d]> ∅) ∧
       (∀ eid, eid ≠ entry_id e →
          domain_records w' !! eid = domain_records init_world !! eid) ∧
       (∀ k, k ≠ DOMAIN → hass_data w' !! k = hass_data init_world !! k).
Proof.
  split; [vm_compute; reflexivity|].
  apply (setup_stores_first_poll (entry "e1" "192.168.1.30")).
  vm_compute. reflexivity.
Defined.

Lemma unload_refused_returns_false_witness :
  Forall unload_answers (unloads (entry "busy" "192.168.1.30")) ∧
  ¬ Forall unload_succeeds (unloads (entry "busy" "192.168.1.30")) ∧
  run (async_unload_entry (entry "busy" "192.168.1.30")) loaded_world =
    Return false ∧
  hass_data (exec (async_unload_entry (entry "busy" "192.168.1.30"))
               loaded_world) = hass_data loaded_world.
Proof.
  assert (Ha : Forall unload_answers (unloads (entry "busy" "192.168.1.30"))).
  { repeat constructor; by eexists. }
  assert (Hn : ¬ Forall unload_succeeds (unloads (entry "busy" "192.168.1.30"))).
  { intros Hall. apply Forall_cons in Hall as [_ Hall].
    apply Forall_cons in Hall as [Hs _]. discriminate Hs. }
  split; [exact Ha|]. split; [exact Hn|].
  apply (unload_refused_returns_false (entry "busy" "192.168.1.30")
           loaded_world Ha Hn).
Defined.

Lemma unload_without_record_witness :
  Forall unload_succeeds (unloads (entry "e2" "192.168.1.30")) ∧
  domain_records loaded_world !! entry_id (entry "e2" "192.168.1.30") = None ∧
  (∃ k, run (async_unload_entry (entry "e2" "192.168.1.30")) loaded_world =
          Raise (Exn KeyError k)) ∧
  hass_data (exec (async_unload_entry (entry "e2" "192.168.1.30"))
               loaded_world) = hass_data loaded_world.
Proof.
  assert (Hs : Forall unload_succeeds (unloads (entry "e2" "192.168.1.30"))).
  { repeat constructor. }
  split; [exact Hs|]. split; [reflexivity|].
  apply (unload_without_record (entry "e2" "192.168.1.30") loaded_world Hs).
  reflexivity.
Defined.

Lemma setup_then_unload_witness :
  run (async_setup_entry (entry "e1" "192.168.1.30")) init_world =
    Return true ∧
  Forall unload_succeeds (unloads (entry "e1" "192.168.1.30")) ∧
  let e := entry "e1" "192.168.1.30" in
  let w1 := exec (async_setup_entry e) init_world in
  let w2 := exec (async_unload_entry e) w1 in
  run (async_unload_entry e) w1 = Return true ∧
  hass_data w2 =
    <[DOMAIN := delete (entry_id e) (domain_records init_world)]>
      (hass_data init_world) ∧
  (domain_records init_world !! entry_id e = None →
   hass_data w2 = <[DOMAIN := domain_records init_world]> (hass_data init_world)).
Proof.
  assert (Hs : Forall unload_succeeds (unloads (entry "e1" "192.168.1.30"))).
  { repeat constructor. }
  split; [vm_compute; reflexivity|]. split; [exact Hs|].
  apply (setup_then_unload (entry "e1" "192.168.1.30") init_world);
    [vm_compute; reflexivity | exact Hs].
Defined.

Lemma update_listener_settles_witness :
  run (update_listener edited_entry) loaded_world =
    Return {| entry_id := "e1"; data := options edited_entry;
              options := options edited_entry |} ∧
  let e' := {| entry_id := "e1"; data := options edited_entry;
               options := options edited_entry |} in
  run (update_listener e') init_world = Return e' ∧
  calls (exec (update_listener e') init_world) = calls init_world ∧
  hass_data (exec (update_listener e') init_world) = hass_data init_world.
Proof.
  split; [vm_compute; reflexivity|].
  apply (update_listener_settles edited_entry _ loaded_world).
  vm_compute. reflexivity.
Defined.

Lemma get_sensors_reads_witness :
  client_update (client_of (entry "e1" "192.168.1.30")) = Return charger_30 ∧
  reads_ok charger_30 SENSOR_TYPES.*1 ∧
  let config := entry "e1" "192.168.1.30" in
  calls (exec (get_sensors config) init_world) =
    calls init_world ++
    [COpenEVSE (dict_get (data config) CONF_HOST)
               (dict_get (data config) CONF_USERNAME)
               (dict_get (data config) CONF_PASSWORD);
     CUpdate] ++
    (CGetattr <$> omap sensor_attr SENSOR_TYPES.*1).
Proof.
  assert (Hok : reads_ok charger_30 SENSOR_TYPES.*1).
  { apply first_uncaught_None. vm_compute. reflexivity. }
  split; [reflexivity|]. split; [exact Hok|].
  apply (get_sensors_reads (entry "e1" "192.168.1.30") charger_30);
    [reflexivity | exact Hok].
Defined.

Lemma get_sensors_first_uncaught_witness :
  client_update (client_of (entry "e1" "192.168.1.31")) = Return charger_31 ∧
  SENSOR_TYPES.*1 =
    ["status"; "charging_current"] ++ "ambient_temperature" :: ["current_power"] ∧
  reads_ok charger_31 ["status"; "charging_current"] ∧
  sensor_read charger_31 "ambient_temperature" =
    Raise (Exn TypeError "unsupported operand type(s) for /") ∧
  caught (Exn TypeError "unsupported operand type(s) for /") = false ∧
  let config := entry "e1" "192.168.1.31" in
  let x := Exn TypeError "unsupported operand type(s) for /" in
  run (get_sensors config) init_world = Raise x ∧
  calls (exec (get_sensors config) init_world) =
    calls init_world ++
    [COpenEVSE (dict_get (data config) CONF_HOST)
               (dict_get (data config) CONF_USERNAME)
               (dict_get (data config) CONF_PASSWORD);
     CUpdate] ++
    (CGetattr <$> omap sensor_attr
       (["status"; "charging_current"] ++ ["ambient_temperature"])) ∧
  ∀ self, Eff.config self = config →
    run (_async_update_data self) init_world = Raise (exc_from UpdateFailed x).
Proof.
  assert (Hok : reads_ok charger_31 ["status"; "charging_current"]).
  { apply first_uncaught_None. vm_compute. reflexivity. }
  split; [reflexivity|]. split; [reflexivity|]. split; [exact Hok|].
  split; [reflexivity|]. split; [reflexivity|].
  apply (get_sensors_first_uncaught (entry "e1" "192.168.1.31") charger_31
           ["status"; "charging_current"] "ambient_temperature"
           ["current_power"]);
    [reflexivity | reflexivity | exact Hok | reflexivity | reflexivity].
Defined.

Lemma get_firmware_after_update_witness :
  client_update (client_of (entry "e1" "192.168.1.30")) = Return charger_30 ∧
  let config := entry "e1" "192.168.1.30" in
  run (get_firmware config) init_world =
    match client_getattr charger_30 "wifi_firmware" with
    | Raise x => Raise x
    | Return wifi_firmware =>
        match client_getattr charger_30 "openevse_firmware" with
        | Raise x => Raise x
        | Return openevse_firmware =>
            Return (wifi_firmware, openevse_firmware)
        end
    end ∧
  calls (exec (get_firmware config) init_world) =
    calls init_world ++
    [COpenEVSE (dict_get (data config) CONF_HOST)
               (dict_get (data config) CONF_USERNAME)
               (dict_get (data config) CONF_PASSWORD);
     CUpdate; CGetattr "wifi_firmware"] ++
    match client_getattr charger_30 "wifi_firmware" with
    | Raise _ => []
    | Return _ => [CGetattr "openevse_firmware"]
    end.
Proof.
  split; [reflexivity|].
  apply (get_firmware_after_update (entry "e1" "192.168.1.30") charger_30).
  reflexivity.
Defined.

Lemma failed_update_is_logged_witness :
  client_update (client_of (entry "e1" "192.168.1.99")) =
    Raise (Exn ConnectionError "Cannot connect to host") ∧
  let config := entry "e1" "192.168.1.99" in
  calls (exec (get_sensors config) init_world) =
    calls init_world ++
    [COpenEVSE (dict_get (data config) CONF_HOST)
               (dict_get (data config) CONF_USERNAME)
               (dict_get (data config) CONF_PASSWORD);
     CUpdate] ∧
  log (exec (get_sensors config) init_world) =
    log init_world ++ [(ERROR, "Error updating sesnors: %s")] ∧
  calls (exec (get_firmware config) init_world) =
    calls init_world ++
    [COpenEVSE (dict_get (data config) CONF_HOST)
               (dict_get (data config) CONF_USERNAME)
               (dict_get (data config) CONF_PASSWORD);
     CUpdate] ∧
  log (exec (get_firmware config) init_world) =
    log init_world ++ [(DEBUG, "Connecting to %s, with username %s");
                       (ERROR, "Problem retreiving firmware data: %s")].
Proof.
  split; [reflexivity|].
  apply (failed_update_is_logged (entry "e1" "192.168.1.99")
           (Exn ConnectionError "Cannot connect to host")).
  reflexivity.
Defined.

(** On [failing_host] both platforms raise when asked to unload, and the
    exception of [select], raised first, is the one that
    [async_unload_entry] raises. *)
Lemma unload_platform_raises_witness :
  "sensor" ∈ PLATFORMS ∧
  @forward_entry_unload failing_host "e1" "sensor" =
    Raise (Exn ValueError "sensor") ∧
  (∃ p y, p ∈ PLATFORMS ∧
          @forward_entry_unload failing_host "e1" p = Raise y ∧
          run (@async_unload_entry const failing_host
                 (entry "e1" "192.168.1.30")) loaded_world = Raise y) ∧
  hass_data (exec (@async_unload_entry const failing_host
                     (entry "e1" "192.168.1.30")) loaded_world) =
    hass_data loaded_world.
Proof.
  assert (Hin : "sensor" ∈ PLATFORMS) by (by left).
  split; [exact Hin|]. split; [reflexivity|].
  apply (@unload_platform_raises const failing_host
           (entry "e1" "192.168.1.30") "sensor" (Exn ValueError "sensor")
           loaded_world Hin).
  reflexivity.
Defined.

Example unload_raises_the_first_in_time :
  run (@async_unload_entry const failing_host (entry "e1" "192.168.1.30"))
    loaded_world = Raise (Exn ValueError "select").
Proof. vm_compute. reflexivity. Qed.
